(** * The Decision Client of the human-in-the-loop approval protocol

    A shallow embedding of the browser side of the legal due diligence
    application: the Zustand store of [frontend/src/stores/appStore.ts]
    (actions [connect], [disconnect], [submitDecision], ... and the message
    handlers [handleApprovalRequest], [handleAgentStatus], [handleTodosUpdate],
    [handleWorkflowEvent]) and the [ApprovalPanel] component with its click
    handlers [handleApprove], [handleEdit], [handleReject], [handleCancel].

    The store is a record, the platform objects the store refers to
    (WebSocket objects) live in a heap indexed by handles, and every handler
    is a function on the whole world.  An exception is an explicit
    [Throw] completion carrying the world at the point of the throw. *)

From Stdlib Require Import ZArith Ascii String DecimalString.
From stdpp Require Import base decidable option list strings gmap.

Set Warnings "-register-all".

Local Open Scope Z_scope.
Local Open Scope string_scope.
Local Open Scope list_scope.

(** ** JSON values

    The values [JSON.parse] produces and [JSON.stringify] consumes.  Numbers
    are restricted to integers: no claim depends on a fractional number.  An
    object keeps its members in insertion order, one member per key. *)

Inductive json : Type :=
| JNull
| JBool (b : bool)
| JNum (n : Z)
| JStr (s : string)
| JArr (items : list json)
| JObj (members : list (string * json)).

(** A value of TypeScript type [any] that may also be [undefined]. *)
Abbreviation jsany := (option json) (only parsing).
Abbreviation undefined := (@None json) (only parsing).

(** [o[k] = v] on an object: update in place or append. *)
Fixpoint obj_set (k : string) (v : json) (ms : list (string * json)) : list (string * json) :=
  match ms with
  | [] => [(k, v)]
  | (k', v') :: ms' =>
      if String.eqb k k' then (k, v) :: ms' else (k', v') :: obj_set k v ms'
  end.

Fixpoint obj_get (k : string) (ms : list (string * json)) : jsany :=
  match ms with
  | [] => None
  | (k', v) :: ms' => if String.eqb k k' then Some v else obj_get k ms'
  end.

(** ** A reference JSON codec

    [JSON.parse] and [JSON.stringify] are builtins of the JavaScript
    platform.  The client below is parametric in them; the functions of this
    module implement the builtins on the fragment of JSON without fractional
    numbers and without [\u] escapes, and serve to run the client on concrete
    inputs. *)

Module RefJSON.

Definition chr (n : nat) : ascii := Ascii.ascii_of_nat n.
Definition dquote : ascii := chr 34.
Definition backslash : ascii := chr 92.
Definition newline : ascii := chr 10.

Definition str1 (c : ascii) : string := String c EmptyString.

Fixpoint escape (s : string) : string :=
  match s with
  | EmptyString => EmptyString
  | String c s' =>
      let n := Ascii.nat_of_ascii c in
      (if Nat.eqb n 34 then String backslash (str1 dquote)
       else if Nat.eqb n 92 then String backslash (str1 backslash)
       else if Nat.eqb n 10 then String backslash "n"
       else if Nat.eqb n 13 then String backslash "r"
       else if Nat.eqb n 9 then String backslash "t"
       else str1 c) +:+ escape s'
  end.

Definition quote (s : string) : string :=
  String dquote (escape s +:+ str1 dquote).

Definition number (n : Z) : string := NilZero.string_of_int (Z.to_int n).

Fixpoint join (sep : string) (l : list string) : string :=
  match l with
  | [] => EmptyString
  | [x] => x
  | x :: l' => x +:+ sep +:+ join sep l'
  end.

(** [JSON.stringify(v)] *)
Fixpoint stringify (v : json) : string :=
  match v with
  | JNull => "null"
  | JBool true => "true"
  | JBool false => "false"
  | JNum n => number n
  | JStr s => quote s
  | JArr items => "[" +:+ join "," (map stringify items) +:+ "]"
  | JObj members =>
      "{" +:+ join "," (map (λ m, quote (fst m) +:+ ":" +:+ stringify (snd m)) members) +:+ "}"
  end.

Fixpoint spaces (n : nat) : string :=
  match n with
  | O => EmptyString
  | S n' => String " " (spaces n')
  end.

(** [JSON.stringify(v, null, 2)] at nesting depth [ind / 2] *)
Fixpoint stringify_indent (ind : nat) (v : json) : string :=
  let inner := (2 + ind)%nat in
  let sep := String "," (String newline (spaces inner)) in
  match v with
  | JArr [] => "[]"
  | JArr items =>
      "[" +:+ String newline (spaces inner)
        +:+ join sep (map (stringify_indent inner) items)
        +:+ String newline (spaces ind) +:+ "]"
  | JObj [] => "{}"
  | JObj members =>
      "{" +:+ String newline (spaces inner)
        +:+ join sep (map (λ m, quote (fst m) +:+ ": " +:+ stringify_indent inner (snd m)) members)
        +:+ String newline (spaces ind) +:+ "}"
  | _ => stringify v
  end.

Definition stringify2 (v : json) : string := stringify_indent 0 v.

(** *** Parsing *)

Definition is_ws (c : ascii) : bool :=
  let n := Ascii.nat_of_ascii c in
  Nat.eqb n 32 || Nat.eqb n 10 || Nat.eqb n 13 || Nat.eqb n 9.

Definition digit (c : ascii) : option Z :=
  let n := Ascii.nat_of_ascii c in
  if (Nat.leb 48 n && Nat.leb n 57)%bool then Some (Z.of_nat n - 48) else None.

Fixpoint skip_ws (cs : list ascii) : list ascii :=
  match cs with
  | c :: cs' => if is_ws c then skip_ws cs' else cs
  | [] => []
  end.

(** The characters of a string literal after its opening quote. *)
Fixpoint parse_chars (cs : list ascii) : option (string * list ascii) :=
  match cs with
  | [] => None
  | c :: cs' =>
      let n := Ascii.nat_of_ascii c in
      if Nat.eqb n 34 then Some (EmptyString, cs')
      else if Nat.eqb n 92 then
        match cs' with
        | e :: cs'' =>
            let k := Ascii.nat_of_ascii e in
            let unescaped :=
              if Nat.eqb k 34 then Some dquote
              else if Nat.eqb k 92 then Some backslash
              else if Nat.eqb k 47 then Some (chr 47)
              else if Nat.eqb k 110 then Some newline
              else if Nat.eqb k 114 then Some (chr 13)
              else if Nat.eqb k 116 then Some (chr 9)
              else if Nat.eqb k 98 then Some (chr 8)
              else if Nat.eqb k 102 then Some (chr 12)
              else None in
            match unescaped with
            | Some u =>
                match parse_chars cs'' with
                | Some (s, rest) => Some (String u s, rest)
                | None => None
                end
            | None => None
            end
        | [] => None
        end
      else if Nat.ltb n 32 then None
      else
        match parse_chars cs' with
        | Some (s, rest) => Some (String c s, rest)
        | None => None
        end
  end.

Fixpoint parse_digits (acc : Z) (cs : list ascii) : Z * list ascii :=
  match cs with
  | c :: cs' =>
      match digit c with
      | Some d => parse_digits (10 * acc + d) cs'
      | None => (acc, cs)
      end
  | [] => (acc, [])
  end.

(** An integer literal: [0] or a non-zero digit followed by digits; a
    fraction or an exponent is outside the fragment. *)
Definition parse_nat (cs : list ascii) : option (Z * list ascii) :=
  match cs with
  | c :: cs' =>
      match digit c with
      | Some d =>
          let '(n, rest) := if Z.eqb d 0 then (0, cs') else parse_digits d cs' in
          match rest with
          | r :: _ =>
              let k := Ascii.nat_of_ascii r in
              if (Nat.eqb k 46 || Nat.eqb k 101 || Nat.eqb k 69 || Nat.leb 48 k && Nat.leb k 57)%bool
              then None else Some (n, rest)
          | [] => Some (n, rest)
          end
      | None => None
      end
  | [] => None
  end.

Definition expect (word : string) (cs : list ascii) : option (list ascii) :=
  let w := list_ascii_of_string word in
  if bool_decide (take (length w) cs = w) then Some (drop (length w) cs) else None.

Fixpoint parse_value (fuel : nat) (cs : list ascii) : option (json * list ascii) :=
  match fuel with
  | O => None
  | S fuel' =>
      match skip_ws cs with
      | [] => None
      | c :: cs' =>
          let n := Ascii.nat_of_ascii c in
          if Nat.eqb n 110 then rest ← expect "ull" cs'; Some (JNull, rest)
          else if Nat.eqb n 116 then rest ← expect "rue" cs'; Some (JBool true, rest)
          else if Nat.eqb n 102 then rest ← expect "alse" cs'; Some (JBool false, rest)
          else if Nat.eqb n 34 then
            '(s, rest) ← parse_chars cs'; Some (JStr s, rest)
          else if Nat.eqb n 45 then
            '(k, rest) ← parse_nat cs'; Some (JNum (- k), rest)
          else if Nat.eqb n 91 then
            match skip_ws cs' with
            | d :: rest =>
                if Nat.eqb (Ascii.nat_of_ascii d) 93 then Some (JArr [], rest)
                else '(items, rest') ← parse_items fuel' cs'; Some (JArr items, rest')
            | [] => None
            end
          else if Nat.eqb n 123 then
            match skip_ws cs' with
            | d :: rest =>
                if Nat.eqb (Ascii.nat_of_ascii d) 125 then Some (JObj [], rest)
                else '(ms, rest') ← parse_members fuel' [] cs'; Some (JObj ms, rest')
            | [] => None
            end
          else
            '(k, rest) ← parse_nat (c :: cs'); Some (JNum k, rest)
      end
  end
with parse_items (fuel : nat) (cs : list ascii) : option (list json * list ascii) :=
  match fuel with
  | O => None
  | S fuel' =>
      '(v, rest) ← parse_value fuel' cs;
      match skip_ws rest with
      | d :: rest' =>
          let k := Ascii.nat_of_ascii d in
          if Nat.eqb k 93 then Some ([v], rest')
          else if Nat.eqb k 44 then
            '(vs, rest'') ← parse_items fuel' rest'; Some (v :: vs, rest'')
          else None
      | [] => None
      end
  end
with parse_members (fuel : nat) (acc : list (string * json)) (cs : list ascii)
  : option (list (string * json) * list ascii) :=
  match fuel with
  | O => None
  | S fuel' =>
      match skip_ws cs with
      | q :: cs1 =>
          if Nat.eqb (Ascii.nat_of_ascii q) 34 then
            '(k, cs2) ← parse_chars cs1;
            match skip_ws cs2 with
            | colon :: cs3 =>
                if Nat.eqb (Ascii.nat_of_ascii colon) 58 then
                  '(v, rest) ← parse_value fuel' cs3;
                  let acc' := obj_set k v acc in
                  match skip_ws rest with
                  | d :: rest' =>
                      let e := Ascii.nat_of_ascii d in
                      if Nat.eqb e 125 then Some (acc', rest')
                      else if Nat.eqb e 44 then parse_members fuel' acc' rest'
                      else None
                  | [] => None
                  end
                else None
            | [] => None
            end
          else None
      | [] => None
      end
  end.

(** [JSON.parse(text)]; [None] stands for the [SyntaxError] it throws.  Every
    recursive call consumes a character, so the length of the text bounds the
    recursion. *)
Definition parse (text : string) : option json :=
  let cs := list_ascii_of_string text in
  match parse_value (S (length cs)) cs with
  | Some (v, rest) =>
      match skip_ws rest with
      | [] => Some v
      | _ => None
      end
  | None => None
  end.

(** Test inputs are written with apostrophes for the quotes of JSON. *)
Fixpoint requote (s : string) : string :=
  match s with
  | EmptyString => EmptyString
  | String c s' =>
      String (if Nat.eqb (Ascii.nat_of_ascii c) 39 then dquote else c) (requote s')
  end.

End RefJSON.



(** ** Protocol and store types ([frontend/src/types/index.ts]) *)

Record Document := {
  document_id : string;
  filename : string;
  summary : string;
  pages : Z;
  uploaded_at : string
}.

Record DocumentPage := {
  num : Z;
  page_summary : string;
  legally_significant : bool
}.

Record DocumentDetail := {
  detail_document : Document;
  page_count : Z;
  detail_pages : list DocumentPage
}.

Record DocumentHighlight := {
  dh_doc_id : string;
  reason : string;
  legally_significant_pages : list Z;
  all_pages_summary : list (Z * string)
}.

Record PageHighlight := {
  ph_doc_id : string;
  page_nums : list Z;
  ph_context : string
}.

Inductive FileOperation := op_write | op_edit.

Record FileHighlight := {
  file_path : string;
  operation : FileOperation;
  content_preview : string
}.

Record ApprovalRequest := {
  request_id : string;
  tool_name : string;
  tool_args : json;
  allowed_decisions : list string;
  document_highlights : list DocumentHighlight;
  page_highlights : list PageHighlight;
  file_highlights : list FileHighlight;
  agent_reasoning : string;
  related_todos : list string;
  timestamp : string
}.

Inductive TodoStatus := pending | in_progress | todo_completed.

Record Todo := {
  content : string;
  status : TodoStatus;
  activeForm : string
}.

Record WorkflowEvent := {
  event_type : string;
  event_data : json;
  event_timestamp : string
}.

Record AgentFile := {
  path : string;
  file_content : string;
  updated_at : string
}.

(** [UIState]: the tagged union of the projections of the client.  The
    [message] of an error is typed [string], but [handleAgentStatus] stores
    whatever [details] the server sent, [undefined] included. *)
Inductive UIState :=
| idle
| agent_running
| awaiting_approval (request : ApprovalRequest)
| completed
| error (message : jsany).

(** [uiState.type !== 'awaiting_approval'] *)
Definition is_awaiting (u : UIState) : bool :=
  match u with awaiting_approval _ => true | _ => false end.

(** ** JavaScript [Set]

    A [Set] iterates in insertion order and holds each element once: a list
    without duplicates, a new element going to the end. *)

Section JSSet.
Context {A : Type} `{EqDecision A}.

Definition set_has (x : A) (s : list A) : bool := bool_decide (x ∈ s).

Definition set_add (s : list A) (x : A) : list A :=
  if set_has x s then s else s ++ [x].

(** [existing] after [xs.forEach(x => existing.add(x))] *)
Definition set_add_all (existing xs : list A) : list A := foldl set_add existing xs.

(** [new Set(xs)] *)
Definition new_Set (xs : list A) : list A := set_add_all [] xs.

End JSSet.

(** ** The store ([AppState] of [appStore.ts]) *)

(** A WebSocket object is referred to by its handle, its index in the heap
    of the world below. *)
Definition handle := nat.

Record AppState := {
  sessionId : option string;
  ws : option handle;
  uiState : UIState;
  documents : list Document;
  selectedDocumentId : option string;
  selectedDocumentDetail : option DocumentDetail;
  highlightedDocumentIds : list string;
  highlightedPages : gmap string (list Z);
  files : gmap string AgentFile;
  selectedFilePath : option string;
  highlightedFilePaths : list string;
  currentPdfPage : Z;
  todos : list Todo;
  workflowEvents : list WorkflowEvent;
  leftPanelWidth : Z;
  rightPanelWidth : Z;
  centerTopHeight : Z
}.

(** The initial state of [create<AppState>()]. *)
Definition initial_state : AppState := {|
  sessionId := None;
  ws := None;
  uiState := idle;
  documents := [];
  selectedDocumentId := None;
  selectedDocumentDetail := None;
  highlightedDocumentIds := new_Set [];
  highlightedPages := ∅;
  files := ∅;
  selectedFilePath := None;
  highlightedFilePaths := new_Set [];
  currentPdfPage := 1;
  todos := [];
  workflowEvents := [];
  leftPanelWidth := 20;
  rightPanelWidth := 20;
  centerTopHeight := 25
|}.

(** *** Partial updates

    Zustand's [set(partial)] replaces the fields the partial state names and
    keeps the others; [set({a, b})] is [set_a a (set_b b st)]. *)

Definition set_sessionId (v : option string) (st : AppState) : AppState :=
  {| sessionId := v; ws := ws st; uiState := uiState st; 
     documents := documents st; selectedDocumentId := selectedDocumentId st; 
     selectedDocumentDetail := selectedDocumentDetail st; 
     highlightedDocumentIds := highlightedDocumentIds st; 
     highlightedPages := highlightedPages st; files := files st; 
     selectedFilePath := selectedFilePath st; 
     highlightedFilePaths := highlightedFilePaths st; 
     currentPdfPage := currentPdfPage st; todos := todos st; 
     workflowEvents := workflowEvents st; 
     leftPanelWidth := leftPanelWidth st; 
     rightPanelWidth := rightPanelWidth st; 
     centerTopHeight := centerTopHeight st |}.

Definition set_ws (v : option handle) (st : AppState) : AppState :=
  {| sessionId := sessionId st; ws := v; uiState := uiState st; 
     documents := documents st; selectedDocumentId := selectedDocumentId st; 
     selectedDocumentDetail := selectedDocumentDetail st; 
     highlightedDocumentIds := highlightedDocumentIds st; 
     highlightedPages := highlightedPages st; files := files st; 
     selectedFilePath := selectedFilePath st; 
     highlightedFilePaths := highlightedFilePaths st; 
     currentPdfPage := currentPdfPage st; todos := todos st; 
     workflowEvents := workflowEvents st; 
     leftPanelWidth := leftPanelWidth st; 
     rightPanelWidth := rightPanelWidth st; 
     centerTopHeight := centerTopHeight st |}.

Definition set_uiState (v : UIState) (st : AppState) : AppState :=
  {| sessionId := sessionId st; ws := ws st; uiState := v; 
     documents := documents st; selectedDocumentId := selectedDocumentId st; 
     selectedDocumentDetail := selectedDocumentDetail st; 
     highlightedDocumentIds := highlightedDocumentIds st; 
     highlightedPages := highlightedPages st; files := files st; 
     selectedFilePath := selectedFilePath st; 
     highlightedFilePaths := highlightedFilePaths st; 
     currentPdfPage := currentPdfPage st; todos := todos st; 
     workflowEvents := workflowEvents st; 
     leftPanelWidth := leftPanelWidth st; 
     rightPanelWidth := rightPanelWidth st; 
     centerTopHeight := centerTopHeight st |}.

Definition set_documents (v : list Document) (st : AppState) : AppState :=
  {| sessionId := sessionId st; ws := ws st; uiState := uiState st; 
     documents := v; selectedDocumentId := selectedDocumentId st; 
     selectedDocumentDetail := selectedDocumentDetail st; 
     highlightedDocumentIds := highlightedDocumentIds st; 
     highlightedPages := highlightedPages st; files := files st; 
     selectedFilePath := selectedFilePath st; 
     highlightedFilePaths := highlightedFilePaths st; 
     currentPdfPage := currentPdfPage st; todos := todos st; 
     workflowEvents := workflowEvents st; 
     leftPanelWidth := leftPanelWidth st; 
     rightPanelWidth := rightPanelWidth st; 
     centerTopHeight := centerTopHeight st |}.

Definition set_selectedDocumentId (v : option string) (st : AppState) : AppState :=
  {| sessionId := sessionId st; ws := ws st; uiState := uiState st; 
     documents := documents st; selectedDocumentId := v; 
     selectedDocumentDetail := selectedDocumentDetail st; 
     highlightedDocumentIds := highlightedDocumentIds st; 
     highlightedPages := highlightedPages st; files := files st; 
     selectedFilePath := selectedFilePath st; 
     highlightedFilePaths := highlightedFilePaths st; 
     currentPdfPage := currentPdfPage st; todos := todos st; 
     workflowEvents := workflowEvents st; 
     leftPanelWidth := leftPanelWidth st; 
     rightPanelWidth := rightPanelWidth st; 
     centerTopHeight := centerTopHeight st |}.

Definition set_selectedDocumentDetail (v : option DocumentDetail) (st : AppState) : AppState :=
  {| sessionId := sessionId st; ws := ws st; uiState := uiState st; 
     documents := documents st; selectedDocumentId := selectedDocumentId st; 
     selectedDocumentDetail := v; 
     highlightedDocumentIds := highlightedDocumentIds st; 
     highlightedPages := highlightedPages st; files := files st; 
     selectedFilePath := selectedFilePath st; 
     highlightedFilePaths := highlightedFilePaths st; 
     currentPdfPage := currentPdfPage st; todos := todos st; 
     workflowEvents := workflowEvents st; 
     leftPanelWidth := leftPanelWidth st; 
     rightPanelWidth := rightPanelWidth st; 
     centerTopHeight := centerTopHeight st |}.

Definition set_highlightedDocumentIds (v : list string) (st : AppState) : AppState :=
  {| sessionId := sessionId st; ws := ws st; uiState := uiState st; 
     documents := documents st; selectedDocumentId := selectedDocumentId st; 
     selectedDocumentDetail := selectedDocumentDetail st; 
     highlightedDocumentIds := v; highlightedPages := highlightedPages st; 
     files := files st; selectedFilePath := selectedFilePath st; 
     highlightedFilePaths := highlightedFilePaths st; 
     currentPdfPage := currentPdfPage st; todos := todos st; 
     workflowEvents := workflowEvents st; 
     leftPanelWidth := leftPanelWidth st; 
     rightPanelWidth := rightPanelWidth st; 
     centerTopHeight := centerTopHeight st |}.

Definition set_highlightedPages (v : gmap string (list Z)) (st : AppState) : AppState :=
  {| sessionId := sessionId st; ws := ws st; uiState := uiState st; 
     documents := documents st; selectedDocumentId := selectedDocumentId st; 
     selectedDocumentDetail := selectedDocumentDetail st; 
     highlightedDocumentIds := highlightedDocumentIds st; 
     highlightedPages := v; files := files st; 
     selectedFilePath := selectedFilePath st; 
     highlightedFilePaths := highlightedFilePaths st; 
     currentPdfPage := currentPdfPage st; todos := todos st; 
     workflowEvents := workflowEvents st; 
     leftPanelWidth := leftPanelWidth st; 
     rightPanelWidth := rightPanelWidth st; 
     centerTopHeight := centerTopHeight st |}.

Definition set_files (v : gmap string AgentFile) (st : AppState) : AppState :=
  {| sessionId := sessionId st; ws := ws st; uiState := uiState st; 
     documents := documents st; selectedDocumentId := selectedDocumentId st; 
     selectedDocumentDetail := selectedDocumentDetail st; 
     highlightedDocumentIds := highlightedDocumentIds st; 
     highlightedPages := highlightedPages st; files := v; 
     selectedFilePath := selectedFilePath st; 
     highlightedFilePaths := highlightedFilePaths st; 
     currentPdfPage := currentPdfPage st; todos := todos st; 
     workflowEvents := workflowEvents st; 
     leftPanelWidth := leftPanelWidth st; 
     rightPanelWidth := rightPanelWidth st; 
     centerTopHeight := centerTopHeight st |}.

Definition set_selectedFilePath (v : option string) (st : AppState) : AppState :=
  {| sessionId := sessionId st; ws := ws st; uiState := uiState st; 
     documents := documents st; selectedDocumentId := selectedDocumentId st; 
     selectedDocumentDetail := selectedDocumentDetail st; 
     highlightedDocumentIds := highlightedDocumentIds st; 
     highlightedPages := highlightedPages st; files := files st; 
     selectedFilePath := v; highlightedFilePaths := highlightedFilePaths st; 
     currentPdfPage := currentPdfPage st; todos := todos st; 
     workflowEvents := workflowEvents st; 
     leftPanelWidth := leftPanelWidth st; 
     rightPanelWidth := rightPanelWidth st; 
     centerTopHeight := centerTopHeight st |}.

Definition set_highlightedFilePaths (v : list string) (st : AppState) : AppState :=
  {| sessionId := sessionId st; ws := ws st; uiState := uiState st; 
     documents := documents st; selectedDocumentId := selectedDocumentId st; 
     selectedDocumentDetail := selectedDocumentDetail st; 
     highlightedDocumentIds := highlightedDocumentIds st; 
     highlightedPages := highlightedPages st; files := files st; 
     selectedFilePath := selectedFilePath st; highlightedFilePaths := v; 
     currentPdfPage := currentPdfPage st; todos := todos st; 
     workflowEvents := workflowEvents st; 
     leftPanelWidth := leftPanelWidth st; 
     rightPanelWidth := rightPanelWidth st; 
     centerTopHeight := centerTopHeight st |}.

Definition set_currentPdfPage (v : Z) (st : AppState) : AppState :=
  {| sessionId := sessionId st; ws := ws st; uiState := uiState st; 
     documents := documents st; selectedDocumentId := selectedDocumentId st; 
     selectedDocumentDetail := selectedDocumentDetail st; 
     highlightedDocumentIds := highlightedDocumentIds st; 
     highlightedPages := highlightedPages st; files := files st; 
     selectedFilePath := selectedFilePath st; 
     highlightedFilePaths := highlightedFilePaths st; currentPdfPage := v; 
     todos := todos st; workflowEvents := workflowEvents st; 
     leftPanelWidth := leftPanelWidth st; 
     rightPanelWidth := rightPanelWidth st; 
     centerTopHeight := centerTopHeight st |}.

Definition set_todos (v : list Todo) (st : AppState) : AppState :=
  {| sessionId := sessionId st; ws := ws st; uiState := uiState st; 
     documents := documents st; selectedDocumentId := selectedDocumentId st; 
     selectedDocumentDetail := selectedDocumentDetail st; 
     highlightedDocumentIds := highlightedDocumentIds st; 
     highlightedPages := highlightedPages st; files := files st; 
     selectedFilePath := selectedFilePath st; 
     highlightedFilePaths := highlightedFilePaths st; 
     currentPdfPage := currentPdfPage st; todos := v; 
     workflowEvents := workflowEvents st; 
     leftPanelWidth := leftPanelWidth st; 
     rightPanelWidth := rightPanelWidth st; 
     centerTopHeight := centerTopHeight st |}.

Definition set_workflowEvents (v : list WorkflowEvent) (st : AppState) : AppState :=
  {| sessionId := sessionId st; ws := ws st; uiState := uiState st; 
     documents := documents st; selectedDocumentId := selectedDocumentId st; 
     selectedDocumentDetail := selectedDocumentDetail st; 
     highlightedDocumentIds := highlightedDocumentIds st; 
     highlightedPages := highlightedPages st; files := files st; 
     selectedFilePath := selectedFilePath st; 
     highlightedFilePaths := highlightedFilePaths st; 
     currentPdfPage := currentPdfPage st; todos := todos st; 
     workflowEvents := v; leftPanelWidth := leftPanelWidth st; 
     rightPanelWidth := rightPanelWidth st; 
     centerTopHeight := centerTopHeight st |}.

Definition set_leftPanelWidth (v : Z) (st : AppState) : AppState :=
  {| sessionId := sessionId st; ws := ws st; uiState := uiState st; 
     documents := documents st; selectedDocumentId := selectedDocumentId st; 
     selectedDocumentDetail := selectedDocumentDetail st; 
     highlightedDocumentIds := highlightedDocumentIds st; 
     highlightedPages := highlightedPages st; files := files st; 
     selectedFilePath := selectedFilePath st; 
     highlightedFilePaths := highlightedFilePaths st; 
     currentPdfPage := currentPdfPage st; todos := todos st; 
     workflowEvents := workflowEvents st; leftPanelWidth := v; 
     rightPanelWidth := rightPanelWidth st; 
     centerTopHeight := centerTopHeight st |}.

Definition set_rightPanelWidth (v : Z) (st : AppState) : AppState :=
  {| sessionId := sessionId st; ws := ws st; uiState := uiState st; 
     documents := documents st; selectedDocumentId := selectedDocumentId st; 
     selectedDocumentDetail := selectedDocumentDetail st; 
     highlightedDocumentIds := highlightedDocumentIds st; 
     highlightedPages := highlightedPages st; files := files st; 
     selectedFilePath := selectedFilePath st; 
     highlightedFilePaths := highlightedFilePaths st; 
     currentPdfPage := currentPdfPage st; todos := todos st; 
     workflowEvents := workflowEvents st; 
     leftPanelWidth := leftPanelWidth st; rightPanelWidth := v; 
     centerTopHeight := centerTopHeight st |}.

Definition set_centerTopHeight (v : Z) (st : AppState) : AppState :=
  {| sessionId := sessionId st; ws := ws st; uiState := uiState st; 
     documents := documents st; selectedDocumentId := selectedDocumentId st; 
     selectedDocumentDetail := selectedDocumentDetail st; 
     highlightedDocumentIds := highlightedDocumentIds st; 
     highlightedPages := highlightedPages st; files := files st; 
     selectedFilePath := selectedFilePath st; 
     highlightedFilePaths := highlightedFilePaths st; 
     currentPdfPage := currentPdfPage st; todos := todos st; 
     workflowEvents := workflowEvents st; 
     leftPanelWidth := leftPanelWidth st; 
     rightPanelWidth := rightPanelWidth st; centerTopHeight := v |}.

(** ** The world around the store

    The WebSocket objects the client created, the frames handed to the
    network, the alerts shown, and the local state of the [ApprovalPanel]
    component ([useState] hooks; the panel is mounted for the lifetime of
    the application, see [App.tsx]). *)

Inductive ReadyState := CONNECTING | OPEN | CLOSING | CLOSED.

(** A socket object with what the closures of its callbacks captured in
    [connect]: the session id. *)
Record WebSocket := {
  url : string;
  readyState : ReadyState;
  closure_sessionId : string
}.

Record PanelState := {
  isEditing : bool;
  editedArgs : string
}.

Record World := {
  store : AppState;
  heap : list WebSocket;
  wire : list (handle * string);
  alerts : list string;
  panel : PanelState
}.

Definition with_store (st : AppState) (w : World) : World :=
  {| store := st; heap := heap w; wire := wire w; alerts := alerts w; panel := panel w |}.

Definition with_heap (hp : list WebSocket) (w : World) : World :=
  {| store := store w; heap := hp; wire := wire w; alerts := alerts w; panel := panel w |}.

Definition with_wire (l : list (handle * string)) (w : World) : World :=
  {| store := store w; heap := heap w; wire := l; alerts := alerts w; panel := panel w |}.

Definition with_panel (p : PanelState) (w : World) : World :=
  {| store := store w; heap := heap w; wire := wire w; alerts := alerts w; panel := p |}.

(** [set(f)] on the store of the world *)
Definition store_set (f : AppState → AppState) (w : World) : World :=
  with_store (f (store w)) w.

(** [alert(text)] *)
Definition alert (text : string) (w : World) : World :=
  {| store := store w; heap := heap w; wire := wire w;
     alerts := alerts w ++ [text]; panel := panel w |}.

Definition setIsEditing (b : bool) (w : World) : World :=
  with_panel {| isEditing := b; editedArgs := editedArgs (panel w) |} w.

Definition setEditedArgs (text : string) (w : World) : World :=
  with_panel {| isEditing := isEditing (panel w); editedArgs := text |} w.

Definition initial_world : World := {|
  store := initial_state;
  heap := [];
  wire := [];
  alerts := [];
  panel := {| isEditing := false; editedArgs := EmptyString |}
|}.

(** *** Completions *)

Inductive Exception := InvalidStateError | SyntaxError | TypeError.

(** How a handler ends: normally, or by an exception, with the world as it
    is at that point. *)
Inductive Completion :=
| Normal (w : World)
| Throw (e : Exception) (w : World).

(** An exception that reaches the event loop is reported and dropped. *)
Definition settle (c : Completion) : World :=
  match c with
  | Normal w => w
  | Throw _ w => w
  end.

(** [ws.send(data)] of the WebSocket API: an [InvalidStateError] while the
    socket is connecting, the frame queued for transmission when it is open,
    the data dropped silently when it is closing or closed. *)
Definition ws_send (h : handle) (data : string) (w : World) : Completion :=
  match heap w !! h with
  | Some sock =>
      match readyState sock with
      | CONNECTING => Throw InvalidStateError w
      | OPEN => Normal (with_wire (wire w ++ [(h, data)]) w)
      | CLOSING | CLOSED => Normal w
      end
  | None => Normal w
  end.

Definition set_readyState (r : ReadyState) (sock : WebSocket) : WebSocket :=
  {| url := url sock; readyState := r; closure_sessionId := closure_sessionId sock |}.

(** [ws.close()]: starts the closing handshake unless the socket is already
    closing or closed. *)
Definition ws_close (h : handle) (w : World) : World :=
  match heap w !! h with
  | Some sock =>
      match readyState sock with
      | CONNECTING | OPEN => with_heap (<[h := set_readyState CLOSING sock]> (heap w)) w
      | CLOSING | CLOSED => w
      end
  | None => w
  end.

(** ** JavaScript values at the dynamically typed places *)

(** [v.k] on a value that is neither [null] nor [undefined]: members of an
    object; none of the names the client reads is a property of a string, a
    number, a boolean or an array. *)
Definition prop (k : string) (v : json) : jsany :=
  match v with
  | JObj ms => obj_get k ms
  | _ => None
  end.

(** [v === 'text'] *)
Definition strict_eq_string (v : jsany) (text : string) : bool :=
  match v with
  | Some (JStr s) => String.eqb s text
  | _ => false
  end.

(** Truthiness of a [string | null]: [null] and the empty string are falsy. *)
Definition truthy (v : option string) : bool :=
  match v with
  | Some s => negb (String.eqb s EmptyString)
  | None => false
  end.

(** [allowed_decisions.includes(name)] *)
Definition includes (l : list string) (name : string) : bool :=
  existsb (String.eqb name) l.

(** ** The client *)

(** The platform the client runs on: [JSON.parse] ([None] for the
    [SyntaxError] it throws), [JSON.stringify(v)],
    [JSON.stringify(v, null, 2)] and the build-time setting
    [import.meta.env.VITE_WS_URL]. *)
Class Platform := {
  JSON_parse : string → option json;
  JSON_stringify : json → string;
  JSON_stringify_indent2 : json → string;
  VITE_WS_URL : option string
}.

Section Client.
Context `{platform : Platform}.

Definition WS_URL : string :=
  if truthy VITE_WS_URL then default EmptyString VITE_WS_URL else "ws://localhost:8000".

(** *** Message handlers *)

(** The page sets of [handleApprovalRequest] after its first loop: each
    document highlight sets the entry of its document. *)
Definition document_pages (dhs : list DocumentHighlight) : gmap string (list Z) :=
  foldl (λ pageHighlights dh,
           <[dh_doc_id dh := new_Set (legally_significant_pages dh)]> pageHighlights)
        ∅ dhs.

(** ... and after its second loop: each page highlight adds its pages to
    the entry of its document, or to a new set. *)
Definition add_page_highlights (phs : list PageHighlight) (start : gmap string (list Z))
  : gmap string (list Z) :=
  foldl (λ pageHighlights ph,
           let existing := default (new_Set []) (pageHighlights !! ph_doc_id ph) in
           <[ph_doc_id ph := set_add_all existing (page_nums ph)]> pageHighlights)
        start phs.

Definition handleApprovalRequest (data : ApprovalRequest) (w : World) : World :=
  let request := data in
  let docIds := new_Set (map dh_doc_id (document_highlights request)) in
  let pageHighlights :=
    add_page_highlights (page_highlights request)
                        (document_pages (document_highlights request)) in
  let fileHighlights := new_Set (map file_path (file_highlights request)) in
  let currentSelected := selectedDocumentId (store w) in
  let newSelected :=
    if bool_decide (0 < length docIds)%nat && negb (truthy currentSelected)
    then head docIds
    else currentSelected in
  store_set (λ st, set_uiState (awaiting_approval request)
                   (set_highlightedDocumentIds docIds
                   (set_highlightedPages pageHighlights
                   (set_highlightedFilePaths fileHighlights
                   (set_selectedDocumentId newSelected st))))) w.

Definition handleAgentStatus (data : jsany) (w : World) : Completion :=
  match data with
  | None | Some JNull => Throw TypeError w
  | Some v =>
      let status := prop "status" v in
      let details := prop "details" v in
      if strict_eq_string status "completed" then
        Normal (store_set (set_uiState completed) w)
      else if strict_eq_string status "failed" then
        Normal (store_set (set_uiState (error details)) w)
      else if strict_eq_string status "running" then
        Normal (store_set (set_uiState agent_running) w)
      else Normal w
  end.

Definition handleTodosUpdate (todos' : list Todo) (w : World) : World :=
  store_set (set_todos todos') w.

(** [now] is the reading of the clock, [new Date().toISOString()]. *)
Definition handleWorkflowEvent (type : string) (data : json) (now : string) (w : World) : World :=
  let event := {| event_type := type; event_data := data; event_timestamp := now |} in
  let events := workflowEvents (store w) ++ [event] in
  store_set (set_workflowEvents events) w.

(** A frame of the server after [JSON.parse], with the payload typed as the
    handler that receives it types it; the payload of [agent_status] is
    [any] and is inspected by its handler, so it stays a raw value. *)
Inductive ServerMessage :=
| msg_approval_request (data : ApprovalRequest)
| msg_agent_status (data : jsany)
| msg_todos_update (todos' : list Todo)
| msg_workflow_event (type : string) (data : json)
| msg_unknown (type : jsany).

(** [ws.onmessage] *)
Definition onmessage (message : ServerMessage) (now : string) (w : World) : Completion :=
  match message with
  | msg_approval_request data => Normal (handleApprovalRequest data w)
  | msg_agent_status data => handleAgentStatus data w
  | msg_todos_update todos' => Normal (handleTodosUpdate todos' w)
  | msg_workflow_event type data => Normal (handleWorkflowEvent type data now w)
  | msg_unknown _ => Normal w
  end.

(** [ws.onopen], [ws.onerror] and [ws.onclose] of the socket [h] *)
Definition onopen (h : handle) (sock : WebSocket) (w : World) : World :=
  store_set (λ st, set_sessionId (Some (closure_sessionId sock))
                   (set_ws (Some h) (set_uiState agent_running st))) w.

Definition onerror (w : World) : World :=
  store_set (set_uiState (error (Some (JStr "Connection error")))) w.

Definition onclose (w : World) : World :=
  store_set (set_ws None) w.

(** *** Actions of the store *)

Definition connect (sessionId' : string) (w : World) : World :=
  let h := length (heap w) in
  let sock := {| url := WS_URL +:+ "/ws/" +:+ sessionId';
                 readyState := CONNECTING;
                 closure_sessionId := sessionId' |} in
  store_set (λ st, set_sessionId (Some sessionId') (set_ws (Some h) st))
            (with_heap (heap w ++ [sock]) w).

Definition disconnect (w : World) : World :=
  match ws (store w) with
  | Some h => store_set (λ st, set_ws None (set_sessionId None st)) (ws_close h w)
  | None => w
  end.

(** The envelope of a decision. *)
Definition approval_decision (rid : string) (decision : json) : json :=
  JObj [("type", JStr "approval_decision");
        ("request_id", JStr rid);
        ("decision", decision)].

Definition submitDecision (decision : json) (w : World) : Completion :=
  match ws (store w), uiState (store w) with
  | Some h, awaiting_approval request =>
      match ws_send h (JSON_stringify (approval_decision (request_id request) decision)) w with
      | Normal w1 =>
          Normal (store_set (λ st, set_uiState agent_running
                                   (set_highlightedDocumentIds (new_Set [])
                                   (set_highlightedPages ∅
                                   (set_highlightedFilePaths (new_Set []) st)))) w1)
      | Throw e w1 => Throw e w1
      end
  | _, _ => Normal w
  end.

(** [selectDocument] is asynchronous: the selection at once, the detail when
    the fetch resolves ([selectDocument_resolved]); a failed fetch changes
    nothing. *)
Definition selectDocument (docId : string) (w : World) : World :=
  store_set (λ st, set_selectedDocumentId (Some docId) (set_currentPdfPage 1 st)) w.

Definition selectDocument_resolved (detail : DocumentDetail) (w : World) : World :=
  store_set (set_selectedDocumentDetail (Some detail)) w.

Definition selectFile (filePath : string) (w : World) : World :=
  store_set (set_selectedFilePath (Some filePath)) w.

Definition setDocuments (docs : list Document) (w : World) : World :=
  store_set (set_documents docs) w.

Definition setCurrentPdfPage (page : Z) (w : World) : World :=
  store_set (set_currentPdfPage page) w.

Definition updateFile (path' content' now : string) (w : World) : World :=
  let files' :=
    <[path' := {| path := path'; file_content := content'; updated_at := now |}]>
      (files (store w)) in
  store_set (set_files files') w.

Inductive SidePanel := panel_left | panel_right.

Definition setLayoutWidth (which : SidePanel) (width : Z) (w : World) : World :=
  match which with
  | panel_left => store_set (set_leftPanelWidth width) w
  | panel_right => store_set (set_rightPanelWidth width) w
  end.

Definition setLayoutHeight (height : Z) (w : World) : World :=
  store_set (set_centerTopHeight height) w.

(** *** The approval panel ([ApprovalPanel]) *)

Definition canEdit (request : ApprovalRequest) : bool :=
  includes (allowed_decisions request) "edit".

Definition canReject (request : ApprovalRequest) : bool :=
  includes (allowed_decisions request) "reject".

Definition decision_approve : json := JObj [("type", JStr "approve")].

Definition decision_edit (request : ApprovalRequest) (parsed : json) : json :=
  JObj [("type", JStr "edit");
        ("edited_action", JObj [("name", JStr (tool_name request)); ("args", parsed)])].

Definition decision_reject : json :=
  JObj [("type", JStr "reject"); ("reason", JStr "User rejected")].

Definition invalid_json_alert : string := "Invalid JSON. Please check your edits.".

Definition handleApprove (w : World) : Completion :=
  match submitDecision decision_approve w with
  | Normal w1 => Normal (setIsEditing false w1)
  | Throw e w1 => Throw e w1
  end.

(** The [try] block holds [JSON.parse], [submitDecision] and
    [setIsEditing(false)]; its [catch] alerts whatever was thrown. *)
Definition handleEdit (request : ApprovalRequest) (w : World) : Completion :=
  if isEditing (panel w) then
    match JSON_parse (editedArgs (panel w)) with
    | Some parsed =>
        match submitDecision (decision_edit request parsed) w with
        | Normal w1 => Normal (setIsEditing false w1)
        | Throw _ w1 => Normal (alert invalid_json_alert w1)
        end
    | None => Normal (alert invalid_json_alert w)
    end
  else
    Normal (setIsEditing true
              (setEditedArgs (JSON_stringify_indent2 (tool_args request)) w)).

Definition handleReject (w : World) : Completion :=
  match submitDecision decision_reject w with
  | Normal w1 => Normal (setIsEditing false w1)
  | Throw e w1 => Throw e w1
  end.

Definition handleCancel (w : World) : World := setIsEditing false w.

Inductive Button := btn_cancel | btn_approve | btn_edit | btn_reject.

(** What a click on a button runs: nothing ([None]) when the panel renders
    [null], when the button is not rendered, or when it is disabled. *)
Definition onClick (b : Button) (w : World) : option Completion :=
  match uiState (store w) with
  | awaiting_approval request =>
      match b with
      | btn_cancel =>
          if isEditing (panel w) then Some (Normal (handleCancel w)) else None
      | btn_approve =>
          if isEditing (panel w) then None else Some (handleApprove w)
      | btn_edit =>
          if canEdit request then Some (handleEdit request w) else None
      | btn_reject =>
          if canReject request && negb (isEditing (panel w))
          then Some (handleReject w) else None
      end
  | _ => None
  end.

(** [onChange] of the arguments editor, rendered while editing. *)
Definition onChange (text : string) (w : World) : option World :=
  match uiState (store w) with
  | awaiting_approval _ =>
      if isEditing (panel w) then Some (setEditedArgs text w) else None
  | _ => None
  end.

(** *** Events

    Everything that can happen to the client: the user acts on the panel, a
    caller invokes an action of the store, or the network moves a socket. *)

Inductive Event :=
| ev_click (b : Button)
| ev_change (text : string)
| ev_connect (sessionId' : string)
| ev_disconnect
| ev_submitDecision (decision : json)
| ev_selectDocument (docId : string)
| ev_selectDocument_resolved (detail : DocumentDetail)
| ev_selectFile (filePath : string)
| ev_setDocuments (docs : list Document)
| ev_setCurrentPdfPage (page : Z)
| ev_updateFile (path' content' now : string)
| ev_setLayoutWidth (which : SidePanel) (width : Z)
| ev_setLayoutHeight (height : Z)
| ev_open (h : handle)
| ev_message (h : handle) (message : ServerMessage) (now : string)
| ev_closing (h : handle)
| ev_closed (h : handle) (failed : bool).

Definition set_heap_readyState (h : handle) (r : ReadyState) (w : World) : World :=
  match heap w !! h with
  | Some sock => with_heap (<[h := set_readyState r sock]> (heap w)) w
  | None => w
  end.

(** One event; [None] when the event cannot occur in this world (a click on
    a button that is not there, a socket that is not in the state the
    network event needs). *)
Definition step (e : Event) (w : World) : option World :=
  match e with
  | ev_click b => settle <$> onClick b w
  | ev_change text => onChange text w
  | ev_connect sessionId' => Some (connect sessionId' w)
  | ev_disconnect => Some (disconnect w)
  | ev_submitDecision decision => Some (settle (submitDecision decision w))
  | ev_selectDocument docId => Some (selectDocument docId w)
  | ev_selectDocument_resolved detail => Some (selectDocument_resolved detail w)
  | ev_selectFile filePath => Some (selectFile filePath w)
  | ev_setDocuments docs => Some (setDocuments docs w)
  | ev_setCurrentPdfPage page => Some (setCurrentPdfPage page w)
  | ev_updateFile path' content' now => Some (updateFile path' content' now w)
  | ev_setLayoutWidth which width => Some (setLayoutWidth which width w)
  | ev_setLayoutHeight height => Some (setLayoutHeight height w)
  | ev_open h =>
      match heap w !! h with
      | Some sock =>
          match readyState sock with
          | CONNECTING => Some (onopen h sock (set_heap_readyState h OPEN w))
          | _ => None
          end
      | None => None
      end
  | ev_message h message now =>
      match heap w !! h with
      | Some sock =>
          match readyState sock with
          | OPEN => Some (settle (onmessage message now w))
          | _ => None
          end
      | None => None
      end
  | ev_closing h =>
      match heap w !! h with
      | Some sock =>
          match readyState sock with
          | OPEN => Some (set_heap_readyState h CLOSING w)
          | _ => None
          end
      | None => None
      end
  | ev_closed h failed =>
      match heap w !! h with
      | Some sock =>
          match readyState sock with
          | CLOSED => None
          | _ =>
              let w1 := set_heap_readyState h CLOSED w in
              Some (onclose (if failed then onerror w1 else w1))
          end
      | None => None
      end
  end.

(** A run of events, each one enabled where it occurs. *)
Fixpoint run (es : list Event) (w : World) : option World :=
  match es with
  | [] => Some w
  | e :: es' =>
      match step e w with
      | Some w1 => run es' w1
      | None => None
      end
  end.

(** The arrival of an approval request. *)
Definition is_approval_request (e : Event) : bool :=
  match e with
  | ev_message _ (msg_approval_request _) _ => true
  | _ => false
  end.

End Client.

(** ** Notions the properties are stated with *)

(** [hasDocumentSelected] of [App.tsx], [!!selectedDocumentId]: the test the
    application uses for a document being selected. *)
Definition hasDocumentSelected (st : AppState) : bool := truthy (selectedDocumentId st).

(** The pages highlighted for a document: [highlightedPages.get(d)], nothing
    when the map has no entry. *)
Definition pages_of (st : AppState) (d : string) : list Z :=
  default [] (highlightedPages st !! d).

(** The last document highlight a request lists for a document. *)
Definition last_document_highlight (d : string) (dhs : list DocumentHighlight)
  : option DocumentHighlight :=
  last (filter (λ dh, dh_doc_id dh = d) dhs).

(** The fields of an [agent_status] payload as [handleAgentStatus] reads
    them; [undefined] when there is no payload. *)
Definition status_of (data : jsany) : jsany := data ≫= prop "status".
Definition details_of (data : jsany) : jsany := data ≫= prop "details".

(** A call of [submitDecision] would get past its guard and past [ws.send]:
    a request is displayed and the socket of the store is not connecting. *)
Definition submit_enabled (w : World) : bool :=
  is_awaiting (uiState (store w)) &&
  match ws (store w) with
  | Some h =>
      match heap w !! h with
      | Some sock =>
          match readyState sock with
          | CONNECTING => false
          | _ => true
          end
      | None => true
      end
  | None => false
  end.

Definition quiescent (w : World) : Prop := submit_enabled w = false.

(** The store once a decision went out: what [submitDecision] sets. *)
Definition resumed (st : AppState) : AppState :=
  set_uiState agent_running
    (set_highlightedDocumentIds []
       (set_highlightedPages ∅
          (set_highlightedFilePaths [] st))).

Definition no_approval_request (es : list Event) : Prop :=
  Forall (λ e, is_approval_request e = false) es.

Section Transmission.
Context `{platform : Platform}.

(** Where a frame on the wire comes from: a direct call of the action, or
    one of the three buttons of the panel, the edit and the reject button
    being rendered only when the request allows them. *)
Definition origin (e : Event) (w : World) (request : ApprovalRequest) (decision : json) : Prop :=
  e = ev_submitDecision decision
  ∨ (e = ev_click btn_approve ∧ decision = decision_approve)
  ∨ (e = ev_click btn_edit ∧ canEdit request = true
     ∧ ∃ parsed, JSON_parse (editedArgs (panel w)) = Some parsed
                 ∧ decision = decision_edit request parsed)
  ∨ (e = ev_click btn_reject ∧ canReject request = true ∧ decision = decision_reject).

(** An event leaves the wire alone or appends one frame; in the latter case
    a request was displayed, the frame is its envelope, and the client is
    quiescent afterwards. *)
Definition transmits (e : Event) (w w' : World) : Prop :=
  ∃ h request decision,
    ws (store w) = Some h
    ∧ uiState (store w) = awaiting_approval request
    ∧ wire w' =
        wire w ++
        [(h, JSON_stringify (approval_decision (request_id request) decision))]
    ∧ quiescent w'
    ∧ origin e w request decision.

End Transmission.

(** *** The specification's wording, for comparison *)

(** [Edit{ edited_args }]: the tagged variant of the data model of the
    specification, next to [decision_edit], the one the panel builds. *)
Definition spec_decision_edit (parsed : json) : json :=
  JObj [("type", JStr "edit"); ("edited_args", parsed)].

(** The pages of a document as the specification derives them: the union
    over all document highlights and all page highlights of the document. *)
Definition spec_highlighted_page (request : ApprovalRequest) (d : string) (n : Z) : Prop :=
  (∃ dh, dh ∈ document_highlights request ∧ dh_doc_id dh = d
         ∧ n ∈ legally_significant_pages dh)
  ∨ (∃ ph, ph ∈ page_highlights request ∧ ph_doc_id ph = d ∧ n ∈ page_nums ph).

(** The variant a decision carries. *)
Definition variant_of (decision : json) : jsany := prop "type" decision.

(** ** Concrete runs

    The reference codec as the platform, and a few requests and worlds to
    run the client on. *)

Definition ref_platform : Platform := {|
  JSON_parse := RefJSON.parse;
  JSON_stringify := RefJSON.stringify;
  JSON_stringify_indent2 := RefJSON.stringify2;
  VITE_WS_URL := None
|}.

Definition example_documents : DocumentHighlight := {|
  dh_doc_id := "d1";
  reason := "Share purchase agreement";
  legally_significant_pages := [2; 5];
  all_pages_summary := [(2, "Warranties"); (5, "Indemnities")]
|}.

Definition example_request (allowed : list string) : ApprovalRequest := {|
  request_id := "req-1";
  tool_name := "get_documents";
  tool_args := JObj [("doc_ids", JArr [JStr "d1"])];
  allowed_decisions := allowed;
  document_highlights := [example_documents];
  page_highlights := [{| ph_doc_id := "d1"; page_nums := [5; 7]; ph_context := "Clause 12" |};
                      {| ph_doc_id := "d2"; page_nums := [1]; ph_context := "Cover" |}];
  file_highlights := [{| file_path := "report.md"; operation := op_write;
                         content_preview := "# Report" |}];
  agent_reasoning := "Read the agreement";
  related_todos := ["Review the share purchase agreement"];
  timestamp := "2025-01-01T00:00:00Z"
|}.

(** A request that lists the same document twice. *)
Definition request_twice : ApprovalRequest := {|
  request_id := "req-2";
  tool_name := "get_documents";
  tool_args := JObj [("doc_ids", JArr [JStr "d1"; JStr "d1"])];
  allowed_decisions := ["approve"; "edit"; "reject"];
  document_highlights :=
    [{| dh_doc_id := "d1"; reason := "first"; legally_significant_pages := [1];
        all_pages_summary := [] |};
     {| dh_doc_id := "d1"; reason := "second"; legally_significant_pages := [2];
        all_pages_summary := [] |}];
  page_highlights := [];
  file_highlights := [];
  agent_reasoning := "Read the agreement";
  related_todos := [];
  timestamp := "2025-01-01T00:00:00Z"
|}.

(** The world after a run from the initial one under the reference
    platform (the initial world when the run is not possible). *)
Definition after (es : list Event) : World :=
  default initial_world (run (platform := ref_platform) es initial_world).

(** A session is connected and the server has sent a request. *)
Definition arrival (request : ApprovalRequest) : list Event :=
  [ev_connect "s1"; ev_open 0%nat; ev_message 0%nat (msg_approval_request request) "t1"].

Definition example_edit_text : string := RefJSON.requote "{'doc_ids': ['d2']}".
Definition example_edit_parsed : json := JObj [("doc_ids", JArr [JStr "d2"])].

Definition world_awaiting : World :=
  after (arrival (example_request ["approve"; "edit"; "reject"])).

Definition world_editing (text : string) : World :=
  after (arrival (example_request ["approve"; "edit"; "reject"])
         ++ [ev_click btn_edit; ev_change text]).

Definition socket_open : WebSocket :=
  {| url := "ws://localhost:8000/ws/s1"; readyState := OPEN; closure_sessionId := "s1" |}.

(** ** The rest of the application

    The components around the approval panel: the layout of [App.tsx], the
    page navigation of [PDFViewer.tsx], the editor of [FileEditor], the
    list of [DocumentList], and the events a user of the mounted
    application can cause. *)

(** *** The layout of [App] *)

(** [hasFileSelected] of [App.tsx], [!!selectedFilePath]. *)
Definition hasFileSelected (st : AppState) : bool := truthy (selectedFilePath st).

Record Layout := {
  leftWidth : Z;
  centerWidth : Z;
  rightWidth : Z
}.

(** The widths [App] computes, in percent. *)
Definition layout (st : AppState) : Layout :=
  if hasDocumentSelected st && hasFileSelected st then
    {| leftWidth := 40; centerWidth := 20; rightWidth := 40 |}
  else if hasDocumentSelected st then
    {| leftWidth := 40; centerWidth := 40; rightWidth := 20 |}
  else if hasFileSelected st then
    {| leftWidth := 20; centerWidth := 40; rightWidth := 40 |}
  else
    {| leftWidth := 20; centerWidth := 60; rightWidth := 20 |}.

(** What [App] mounts: the viewer or the list on the left, the editor or
    the list on the right. *)
Definition mounts_PDFViewer (st : AppState) : bool := hasDocumentSelected st.
Definition mounts_FileEditor (st : AppState) : bool := hasFileSelected st.
Definition mounts_DocumentList (st : AppState) : bool :=
  negb (hasDocumentSelected st) || negb (hasFileSelected st).

(** *** [PDFViewer] *)

(** [currentDocHighlights?.has(pageNum) || false] *)
Definition isPageHighlighted (st : AppState) (pageNum : Z) : bool :=
  match selectedDocumentId st with
  | Some selectedDocId =>
      if truthy (Some selectedDocId) then
        match highlightedPages st !! selectedDocId with
        | Some currentDocHighlights => set_has pageNum currentDocHighlights
        | None => false
        end
      else false
  | None => false
  end.

(** [pages.find(p => p.num === pageNum)] and [page?.legally_significant || false] *)
Definition isPageLegallySignificant (st : AppState) (pageNum : Z) : bool :=
  match selectedDocumentDetail st with
  | None => false
  | Some detail =>
      match List.find (λ p, Z.eqb (num p) pageNum) (detail_pages detail) with
      | Some page => legally_significant page
      | None => false
      end
  end.

Definition handlePrevPage (w : World) : World :=
  let currentPage := currentPdfPage (store w) in
  if Z.ltb 1 currentPage then store_set (set_currentPdfPage (currentPage - 1)) w else w.

Definition handleNextPage (w : World) : World :=
  let currentPage := currentPdfPage (store w) in
  match selectedDocumentDetail (store w) with
  | Some detail =>
      if Z.ltb currentPage (page_count detail)
      then store_set (set_currentPdfPage (currentPage + 1)) w
      else w
  | None => w
  end.

(** [selectedDocDetail?.page_count || 0] *)
Definition page_count_or_0 (st : AppState) : Z :=
  match selectedDocumentDetail st with
  | Some detail => page_count detail
  | None => 0
  end.

Inductive NavButton := nav_prev | nav_next.

Definition navigate (b : NavButton) (w : World) : World :=
  match b with
  | nav_prev => handlePrevPage w
  | nav_next => handleNextPage w
  end.

(** A click on a navigation button of the toolbar: the viewer has no
    toolbar without a selected document, and a disabled button does not
    fire. *)
Definition nav_onClick (b : NavButton) (w : World) : option World :=
  if truthy (selectedDocumentId (store w)) then
    match b with
    | nav_prev =>
        if Z.eqb (currentPdfPage (store w)) 1 then None else Some (handlePrevPage w)
    | nav_next =>
        if Z.eqb (currentPdfPage (store w)) (page_count_or_0 (store w))
        then None else Some (handleNextPage w)
    end
  else None.

(** A click on the [i]-th entry of the page list of the sidebar, shown
    while the sidebar is not collapsed and the detail is loaded. *)
Definition page_onClick (sidebarCollapsed : bool) (i : nat) (w : World) : option World :=
  if truthy (selectedDocumentId (store w)) && negb sidebarCollapsed then
    match selectedDocumentDetail (store w) with
    | Some detail =>
        match detail_pages detail !! i with
        | Some page => Some (store_set (set_currentPdfPage (num page)) w)
        | None => None
        end
    | None => None
    end
  else None.

(** *** [FileEditor] *)

(** [selectedFilePath ? files.get(selectedFilePath) : null] *)
Definition selectedFile (st : AppState) : option AgentFile :=
  match selectedFilePath st with
  | Some p => if truthy (Some p) then files st !! p else None
  | None => None
  end.

Definition handleContentChange (value now : string) (w : World) : World :=
  match selectedFilePath (store w) with
  | Some p => if truthy (Some p) then updateFile p value now w else w
  | None => w
  end.

(** [onChange] of the content editor, rendered for a selected file that
    exists. *)
Definition content_onChange (value now : string) (w : World) : option World :=
  match selectedFile (store w) with
  | Some _ => Some (handleContentChange value now w)
  | None => None
  end.

(** A click on the entry of the file list for the file stored under [k]. *)
Definition file_onClick (k : string) (w : World) : option World :=
  match files (store w) !! k with
  | Some file => Some (selectFile (path file) w)
  | None => None
  end.

(** *** [DocumentList] *)

(** A click on the [i]-th entry of the list. *)
Definition document_onClick (i : nat) (w : World) : option World :=
  match documents (store w) !! i with
  | Some doc => Some (selectDocument (document_id doc) w)
  | None => None
  end.

(** [highlightedIds.has(doc.id)] and [selectedId === doc.id] *)
Definition document_isHighlighted (st : AppState) (doc : Document) : bool :=
  set_has (document_id doc) (highlightedDocumentIds st).

Definition document_isSelected (st : AppState) (doc : Document) : bool :=
  bool_decide (selectedDocumentId st = Some (document_id doc)).

(** *** The mounted application

    What a user and the network can do to the application [App] mounts:
    the actions of the store are reached through the components only.  The
    two requests [App] awaits before it calls the store ([loadDocuments],
    [handleStartSession]) and the fetch of [selectDocument] resolve at any
    later time. *)

Inductive AppEvent :=
| app_documents_loaded (docs : list Document)
| app_session_started (session_id : string)
| app_detail_loaded (detail : DocumentDetail)
| app_document_click (i : nat)
| app_nav_click (b : NavButton)
| app_page_click (sidebarCollapsed : bool) (i : nat)
| app_file_click (k : string)
| app_content_change (value now : string)
| app_panel_click (b : Button)
| app_panel_change (text : string)
| app_socket_open (h : handle)
| app_socket_message (h : handle) (message : ServerMessage) (now : string)
| app_socket_closing (h : handle)
| app_socket_closed (h : handle) (failed : bool).

Section MountedApplication.
Context `{platform : Platform}.

Definition app_step (e : AppEvent) (w : World) : option World :=
  match e with
  | app_documents_loaded docs => Some (setDocuments docs w)
  | app_session_started session_id => Some (connect session_id w)
  | app_detail_loaded detail => Some (selectDocument_resolved detail w)
  | app_document_click i =>
      if mounts_DocumentList (store w) then document_onClick i w else None
  | app_nav_click b =>
      if mounts_PDFViewer (store w) then nav_onClick b w else None
  | app_page_click sidebarCollapsed i =>
      if mounts_PDFViewer (store w) then page_onClick sidebarCollapsed i w else None
  | app_file_click k =>
      if mounts_FileEditor (store w) then file_onClick k w else None
  | app_content_change value now =>
      if mounts_FileEditor (store w) then content_onChange value now w else None
  | app_panel_click b => step (ev_click b) w
  | app_panel_change text => step (ev_change text) w
  | app_socket_open h => step (ev_open h) w
  | app_socket_message h message now => step (ev_message h message now) w
  | app_socket_closing h => step (ev_closing h) w
  | app_socket_closed h failed => step (ev_closed h failed) w
  end.

Fixpoint app_run (es : list AppEvent) (w : World) : option World :=
  match es with
  | [] => Some w
  | e :: es' =>
      match app_step e w with
      | Some w1 => app_run es' w1
      | None => None
      end
  end.

End MountedApplication.

(** *** Invariants of the store *)

(** The socket of the store exists and was created for the session the
    store shows. *)
Definition session_consistent (w : World) : Prop :=
  ∀ h, ws (store w) = Some h →
       ∃ sock, heap w !! h = Some sock
               ∧ sessionId (store w) = Some (closure_sessionId sock).

(** Every file is stored under its own path. *)
Definition files_keyed_by_path (w : World) : Prop :=
  ∀ k file, files (store w) !! k = Some file → path file = k.

(** While a request is displayed, the highlights are the ones
    [handleApprovalRequest] derives from it. *)
Definition highlights_of_displayed_request (w : World) : Prop :=
  ∀ request, uiState (store w) = awaiting_approval request →
    highlightedDocumentIds (store w) = new_Set (map dh_doc_id (document_highlights request))
    ∧ highlightedPages (store w) =
        add_page_highlights (page_highlights request)
                            (document_pages (document_highlights request))
    ∧ highlightedFilePaths (store w) = new_Set (map file_path (file_highlights request)).

(** *** More concrete data *)

Definition example_detail : DocumentDetail := {|
  detail_document := {| document_id := "d1"; filename := "spa.pdf"; summary := "Agreement";
                        pages := 3; uploaded_at := "2025-01-01T00:00:00Z" |};
  page_count := 3;
  detail_pages := [{| num := 1; page_summary := "Parties"; legally_significant := false |};
                   {| num := 2; page_summary := "Warranties"; legally_significant := true |};
                   {| num := 3; page_summary := "Signatures"; legally_significant := false |}]
|}.

(** A document is selected, its detail is loaded, and the viewer shows
    page 2. *)
Definition world_viewing : World :=
  store_set (set_currentPdfPage 2)
    (selectDocument_resolved example_detail (selectDocument "d1" initial_world)).

(** A file is in the store and selected. *)
Definition world_with_file : World :=
  selectFile "report.md" (updateFile "report.md" "# Draft" "t0" initial_world).

(** A session is connected and running. *)
Definition world_running : World := after [ev_connect "s1"; ev_open 0%nat].

(** * Properties *)

Section Properties.
Context `{platform : Platform}.

(** ** Properties of [submitDecision] *)

Lemma strict_eq_string_true v text :
  strict_eq_string v text = true ↔ v = Some (JStr text).
Proof.
  destruct v as [[]|]; simpl; try (split; [discriminate | intros [=]]).
  rewrite String.eqb_eq. split; [intros ->; reflexivity | intros [=]; assumption].
Qed.

Lemma strict_eq_string_false v text :
  strict_eq_string v text = false ↔ v ≠ Some (JStr text).
Proof.
  rewrite <- strict_eq_string_true. destruct (strict_eq_string v text); split; congruence.
Qed.

(** What [submitDecision] does when its guard lets the call through, by the
    state of the socket. *)
Lemma submitDecision_awaiting decision w h request :
  ws (store w) = Some h →
  uiState (store w) = awaiting_approval request →
  submitDecision decision w =
    match ws_send h (JSON_stringify (approval_decision (request_id request) decision)) w with
    | Normal w1 => Normal (store_set resumed w1)
    | Throw e w1 => Throw e w1
    end.
Proof. intros Hws Hui. unfold submitDecision. rewrite Hws, Hui. reflexivity. Qed.

(** The guard: without a socket or outside [awaiting_approval] the call
    returns at once. *)
Lemma submitDecision_guard decision w :
  ws (store w) = None ∨ is_awaiting (uiState (store w)) = false →
  submitDecision decision w = Normal w.
Proof.
  unfold submitDecision. intros [-> | H]; [reflexivity |].
  destruct (ws (store w)); [| reflexivity].
  destruct (uiState (store w)); try reflexivity. discriminate.
Qed.

Lemma ws_send_open h data w sock :
  heap w !! h = Some sock → readyState sock = OPEN →
  ws_send h data w = Normal (with_wire (wire w ++ [(h, data)]) w).
Proof. intros Hh Hr. unfold ws_send. rewrite Hh, Hr. reflexivity. Qed.

(** [ws.send] throws before it changes anything, and changes nothing but
    the wire. *)
Lemma ws_send_cases h data w :
  ws_send h data w = Normal w
  ∨ ws_send h data w = Throw InvalidStateError w
  ∨ ws_send h data w = Normal (with_wire (wire w ++ [(h, data)]) w).
Proof.
  unfold ws_send. destruct (heap w !! h) as [sock|]; [| left; destruct w; reflexivity].
  destruct (readyState sock); auto.
Qed.

(** Every way a call of [submitDecision] can go. *)
Lemma submitDecision_cases decision w :
  (quiescent w
   ∧ (submitDecision decision w = Normal w
      ∨ submitDecision decision w = Throw InvalidStateError w))
  ∨ (∃ h request,
       ws (store w) = Some h
       ∧ uiState (store w) = awaiting_approval request
       ∧ submit_enabled w = true
       ∧ (submitDecision decision w = Normal (store_set resumed w)
          ∨ submitDecision decision w =
              Normal (store_set resumed
                        (with_wire
                           (wire w ++
                            [(h, JSON_stringify
                                   (approval_decision (request_id request) decision))])
                           w)))).
Proof.
  destruct (ws (store w)) as [h|] eqn:Hws.
  2:{ left. split; [| left; apply submitDecision_guard; auto].
      unfold quiescent, submit_enabled. rewrite Hws. apply andb_false_r. }
  destruct (is_awaiting (uiState (store w))) eqn:Haw.
  2:{ left. split; [| left; apply submitDecision_guard; auto].
      unfold quiescent, submit_enabled. rewrite Haw. reflexivity. }
  destruct (uiState (store w)) as [| |request| |message] eqn:Hui; try discriminate.
  rewrite (submitDecision_awaiting decision w h request Hws Hui).
  unfold quiescent, submit_enabled, ws_send. rewrite Hws, Hui. simpl.
  destruct (heap w !! h) as [sock|]; [destruct (readyState sock) |].
  - left. auto.
  - right. exists h, request. auto 10.
  - right. exists h, request. auto 10.
  - right. exists h, request. auto 10.
  - right. exists h, request. auto 10.
Qed.

Lemma submitDecision_quiescent decision w :
  quiescent w →
  submitDecision decision w = Normal w
  ∨ submitDecision decision w = Throw InvalidStateError w.
Proof.
  intros Hq. destruct (submitDecision_cases decision w) as [[_ Hc] | (h & r & _ & _ & Hen & _)];
    [assumption |].
  unfold quiescent in Hq. congruence.
Qed.

Lemma quiescent_resumed w : quiescent (store_set resumed w).
Proof. reflexivity. Qed.

Lemma quiescent_after_submitDecision decision w :
  quiescent (settle (submitDecision decision w)).
Proof.
  destruct (submitDecision_cases decision w)
    as [[Hq [-> | ->]] | (h & r & _ & _ & _ & [-> | ->])]; try assumption; reflexivity.
Qed.

(** [submit_enabled] reads the projection, the socket of the store and the
    heap, and nothing else. *)
Lemma quiescent_ext w w' :
  is_awaiting (uiState (store w')) = is_awaiting (uiState (store w)) →
  ws (store w') = ws (store w) →
  heap w' = heap w →
  quiescent w → quiescent w'.
Proof.
  unfold quiescent, submit_enabled. intros -> -> ->. trivial.
Qed.

(** C3: a call of [submitDecision] in [awaiting_approval] with an open
    socket completes normally, whatever decision it is given, and leaves the
    three highlight collections empty and the projection at
    [agent_running]. *)
Theorem submitDecision_clears_highlights decision w h sock request :
  ws (store w) = Some h →
  heap w !! h = Some sock →
  readyState sock = OPEN →
  uiState (store w) = awaiting_approval request →
  ∃ w', submitDecision decision w = Normal w'
        ∧ highlightedDocumentIds (store w') = []
        ∧ highlightedPages (store w') = ∅
        ∧ highlightedFilePaths (store w') = []
        ∧ uiState (store w') = agent_running.
Proof.
  intros Hws Hh Hr Hui.
  rewrite (submitDecision_awaiting _ _ _ _ Hws Hui), (ws_send_open _ _ _ _ Hh Hr).
  eexists; split; [reflexivity |]. simpl. auto.
Qed.

(** C10: a call of [submitDecision] that completes leaves every field of
    the store other than [uiState] and the three highlight collections as it
    was. *)
Theorem submitDecision_frame decision w w' :
  submitDecision decision w = Normal w' →
  sessionId (store w') = sessionId (store w)
  ∧ ws (store w') = ws (store w)
  ∧ documents (store w') = documents (store w)
  ∧ selectedDocumentId (store w') = selectedDocumentId (store w)
  ∧ selectedDocumentDetail (store w') = selectedDocumentDetail (store w)
  ∧ files (store w') = files (store w)
  ∧ selectedFilePath (store w') = selectedFilePath (store w)
  ∧ currentPdfPage (store w') = currentPdfPage (store w)
  ∧ todos (store w') = todos (store w)
  ∧ workflowEvents (store w') = workflowEvents (store w)
  ∧ leftPanelWidth (store w') = leftPanelWidth (store w)
  ∧ rightPanelWidth (store w') = rightPanelWidth (store w)
  ∧ centerTopHeight (store w') = centerTopHeight (store w).
Proof.
  unfold submitDecision.
  destruct (ws (store w)) as [h|] eqn:Hws; [| intros [= <-]; auto 15].
  destruct (uiState (store w)) as [| |request| |message] eqn:Hui;
    try (intros [= <-]; auto 15).
  destruct (ws_send_cases h (JSON_stringify (approval_decision (request_id request) decision)) w)
    as [-> | [-> | ->]]; [| discriminate |]; intros [= <-]; simpl; auto 15.
Qed.

(** ** Properties of the message handlers *)

(** C8: [handleAgentStatus] sets the projection to [completed] on status
    "completed", to an error carrying the details of the message on
    "failed", to [agent_running] on "running", and leaves it as it was on
    every other status, a missing one included. *)
Theorem handleAgentStatus_projection (data : jsany) (w : World) :
  let w' := settle (handleAgentStatus data w) in
  (status_of data = Some (JStr "completed") → uiState (store w') = completed)
  ∧ (status_of data = Some (JStr "failed") → uiState (store w') = error (details_of data))
  ∧ (status_of data = Some (JStr "running") → uiState (store w') = agent_running)
  ∧ (status_of data ≠ Some (JStr "completed") →
     status_of data ≠ Some (JStr "failed") →
     status_of data ≠ Some (JStr "running") →
     uiState (store w') = uiState (store w)).
Proof.
  destruct data as [v|]; simpl; [| repeat split; try discriminate].
  destruct v; simpl; try (repeat split; discriminate || reflexivity).
  set (st := obj_get "status" members).
  repeat split.
  - intros ->. reflexivity.
  - intros ->. reflexivity.
  - intros ->. reflexivity.
  - intros H1 H2 H3.
    apply strict_eq_string_false in H1, H2, H3. rewrite H1, H2, H3. reflexivity.
Qed.

(** ** Properties of the approval panel *)

(** C5: confirming an edit whose text [JSON.parse] rejects is a local
    failure: the handler alerts and does nothing else; nothing reaches the
    wire, the panel stays in editing mode with the same text, and the store
    keeps showing the same request in [awaiting_approval]. *)
Theorem handleEdit_invalid_json request w :
  uiState (store w) = awaiting_approval request →
  isEditing (panel w) = true →
  JSON_parse (editedArgs (panel w)) = None →
  ∃ w', handleEdit request w = Normal w'
        ∧ wire w' = wire w
        ∧ isEditing (panel w') = true
        ∧ editedArgs (panel w') = editedArgs (panel w)
        ∧ uiState (store w') = awaiting_approval request
        ∧ store w' = store w
        ∧ alerts w' = alerts w ++ [invalid_json_alert].
Proof.
  intros Hui Hed Hparse. unfold handleEdit. rewrite Hed, Hparse.
  eexists; split; [reflexivity |]. simpl. auto 10.
Qed.

(** C6, as the code has it: confirming an edit whose text parses, with the
    request displayed and the socket open, transmits one frame, the envelope
    of the request whose decision is
    [{ type: 'edit', edited_action: { name, args } }] with the name of the
    tool of the request and the parsed value as arguments. *)
Theorem handleEdit_valid_json request w h sock parsed :
  uiState (store w) = awaiting_approval request →
  ws (store w) = Some h →
  heap w !! h = Some sock →
  readyState sock = OPEN →
  isEditing (panel w) = true →
  JSON_parse (editedArgs (panel w)) = Some parsed →
  ∃ w', handleEdit request w = Normal w'
        ∧ wire w' =
            wire w ++
            [(h, JSON_stringify
                   (JObj [("type", JStr "approval_decision");
                          ("request_id", JStr (request_id request));
                          ("decision",
                           JObj [("type", JStr "edit");
                                 ("edited_action",
                                  JObj [("name", JStr (tool_name request));
                                        ("args", parsed)])])]))].
Proof.
  intros Hui Hws Hh Hr Hed Hparse. unfold handleEdit. rewrite Hed, Hparse.
  rewrite (submitDecision_awaiting _ _ _ _ Hws Hui), (ws_send_open _ _ _ _ Hh Hr).
  eexists; split; reflexivity.
Qed.

(** ** Transmission *)

Local Abbreviation frame request decision :=
  (JSON_stringify (approval_decision (request_id request) decision)).

Lemma set_heap_readyState_wire h r w : wire (set_heap_readyState h r w) = wire w.
Proof. unfold set_heap_readyState. destruct (heap w !! h); reflexivity. Qed.

Lemma set_heap_readyState_store h r w : store (set_heap_readyState h r w) = store w.
Proof. unfold set_heap_readyState. destruct (heap w !! h); reflexivity. Qed.

Lemma ws_close_wire h w : wire (ws_close h w) = wire w.
Proof.
  unfold ws_close. destruct (heap w !! h) as [sock|]; [| reflexivity].
  destruct (readyState sock); reflexivity.
Qed.

Lemma handleAgentStatus_wire data w : wire (settle (handleAgentStatus data w)) = wire w.
Proof.
  unfold handleAgentStatus. destruct data as [[]|]; try reflexivity.
  repeat (destruct (strict_eq_string _ _); [reflexivity |]). reflexivity.
Qed.

(** A handler that wraps [submitDecision] and then only touches the panel
    or alerts. *)
Lemma wrapped_submitDecision e w request decision (after_ok after_throw : World → World) :
  uiState (store w) = awaiting_approval request →
  (∀ w1, wire (after_ok w1) = wire w1 ∧ store (after_ok w1) = store w1
         ∧ heap (after_ok w1) = heap w1) →
  (∀ w1, wire (after_throw w1) = wire w1) →
  origin e w request decision →
  let w' := match submitDecision decision w with
            | Normal w1 => after_ok w1
            | Throw _ w1 => after_throw w1
            end in
  wire w' = wire w ∨ transmits e w w'.
Proof.
  intros Hui Hok Hthrow Horigin.
  destruct (submitDecision_cases decision w)
    as [[_ [-> | ->]] | (h & r & Hws & Hui' & _ & [-> | ->])]; simpl.
  - left. apply Hok.
  - left. apply Hthrow.
  - left. destruct (Hok (store_set resumed w)) as [-> _]. reflexivity.
  - right. exists h, request, decision.
    assert (r = request) as -> by congruence.
    destruct (Hok (store_set resumed
                     (with_wire (wire w ++ [(h, frame request decision)]) w)))
      as (-> & Hst & Hhp).
    repeat split; try assumption.
    unfold quiescent, submit_enabled. rewrite Hst. reflexivity.
Qed.

(** The completions of the three submitting handlers, settled. *)
Lemma settle_handleApprove w :
  settle (handleApprove w) =
    match submitDecision decision_approve w with
    | Normal w1 => setIsEditing false w1
    | Throw _ w1 => w1
    end.
Proof. unfold handleApprove. destruct (submitDecision _ w); reflexivity. Qed.

Lemma settle_handleReject w :
  settle (handleReject w) =
    match submitDecision decision_reject w with
    | Normal w1 => setIsEditing false w1
    | Throw _ w1 => w1
    end.
Proof. unfold handleReject. destruct (submitDecision _ w); reflexivity. Qed.

Lemma settle_handleEdit_parsed request w parsed :
  isEditing (panel w) = true →
  JSON_parse (editedArgs (panel w)) = Some parsed →
  settle (handleEdit request w) =
    match submitDecision (decision_edit request parsed) w with
    | Normal w1 => setIsEditing false w1
    | Throw _ w1 => alert invalid_json_alert w1
    end.
Proof.
  intros Hed Hparse. unfold handleEdit. rewrite Hed, Hparse.
  destruct (submitDecision _ w); reflexivity.
Qed.

Lemma click_transmission b w c :
  onClick b w = Some c →
  wire (settle c) = wire w ∨ transmits (ev_click b) w (settle c).
Proof.
  unfold onClick.
  destruct (uiState (store w)) as [| |request| |message] eqn:Hui; try discriminate.
  destruct b.
  - destruct (isEditing (panel w)); [| discriminate]. intros [= <-]. left. reflexivity.
  - destruct (isEditing (panel w)); [discriminate |]. intros [= <-].
    rewrite settle_handleApprove.
    apply (wrapped_submitDecision _ w request decision_approve (setIsEditing false) id);
      auto; unfold origin; auto.
  - destruct (canEdit request) eqn:Hcan; [| discriminate]. intros [= <-].
    destruct (isEditing (panel w)) eqn:Hed;
      [| unfold handleEdit; rewrite Hed; left; reflexivity].
    destruct (JSON_parse (editedArgs (panel w))) as [parsed|] eqn:Hparse;
      [| unfold handleEdit; rewrite Hed, Hparse; left; reflexivity].
    rewrite (settle_handleEdit_parsed request w parsed Hed Hparse).
    apply (wrapped_submitDecision _ w request (decision_edit request parsed)
             (setIsEditing false) (alert invalid_json_alert));
      auto; unfold origin; eauto 10.
  - destruct (canReject request) eqn:Hcan; [| discriminate].
    destruct (isEditing (panel w)); [discriminate |]. intros [= <-].
    rewrite settle_handleReject.
    apply (wrapped_submitDecision _ w request decision_reject (setIsEditing false) id);
      auto; unfold origin; auto 10.
Qed.

Lemma step_transmission e w w' :
  step e w = Some w' → wire w' = wire w ∨ transmits e w w'.
Proof.
  destruct e; simpl.
  - destruct (onClick b w) as [c|] eqn:Hc; [| discriminate]. intros [= <-].
    apply click_transmission. assumption.
  - unfold onChange. destruct (uiState (store w)); try discriminate.
    destruct (isEditing (panel w)); [| discriminate]. intros [= <-]. left. reflexivity.
  - intros [= <-]. left. reflexivity.
  - intros [= <-]. left. unfold disconnect.
    destruct (ws (store w)); [| reflexivity]. simpl. apply ws_close_wire.
  - intros [= <-].
    destruct (submitDecision_cases decision w)
      as [[_ [-> | ->]] | (h & r & Hws & Hui & _ & [-> | ->])]; auto.
    right. exists h, r, decision. repeat split; auto. left. reflexivity.
  - intros [= <-]. left. reflexivity.
  - intros [= <-]. left. reflexivity.
  - intros [= <-]. left. reflexivity.
  - intros [= <-]. left. reflexivity.
  - intros [= <-]. left. reflexivity.
  - intros [= <-]. left. reflexivity.
  - intros [= <-]. left. destruct which; reflexivity.
  - intros [= <-]. left. reflexivity.
  - destruct (heap w !! h) as [sock|]; [| discriminate].
    destruct (readyState sock); try discriminate. intros [= <-]. left.
    simpl. apply set_heap_readyState_wire.
  - destruct (heap w !! h) as [sock|]; [| discriminate].
    destruct (readyState sock); try discriminate. intros [= <-]. left.
    destruct message; try reflexivity. apply handleAgentStatus_wire.
  - destruct (heap w !! h) as [sock|]; [| discriminate].
    destruct (readyState sock); try discriminate. intros [= <-]. left.
    apply set_heap_readyState_wire.
  - destruct (heap w !! h) as [sock|]; [| discriminate].
    destruct (readyState sock); try discriminate; intros [= <-]; left;
      destruct failed; simpl; apply set_heap_readyState_wire.
Qed.

(** C7: a call of [submitDecision] for a displayed request on an open
    socket puts a frame on the wire, the serialisation of
    [{ type: 'approval_decision', request_id, decision }] with the
    [request_id] of the request displayed in [awaiting_approval] and the
    decision given, on the socket of the store; and whatever happens, a
    frame the client puts on the wire is such an envelope of the request
    displayed when the frame is sent. *)
Theorem transmitted_frame_is_envelope :
  (∀ decision w h sock request,
     ws (store w) = Some h →
     heap w !! h = Some sock →
     readyState sock = OPEN →
     uiState (store w) = awaiting_approval request →
     ∃ w', submitDecision decision w = Normal w'
           ∧ wire w' =
               wire w ++
               [(h, JSON_stringify
                      (JObj [("type", JStr "approval_decision");
                             ("request_id", JStr (request_id request));
                             ("decision", decision)]))])
  ∧ (∀ e w w',
       step e w = Some w' →
       wire w' = wire w
       ∨ ∃ h request decision,
           ws (store w) = Some h
           ∧ uiState (store w) = awaiting_approval request
           ∧ wire w' =
               wire w ++
               [(h, JSON_stringify
                      (JObj [("type", JStr "approval_decision");
                             ("request_id", JStr (request_id request));
                             ("decision", decision)]))]).
Proof.
  split.
  - intros decision w h sock request Hws Hh Hr Hui.
    rewrite (submitDecision_awaiting _ _ _ _ Hws Hui), (ws_send_open _ _ _ _ Hh Hr).
    eexists. split; reflexivity.
  - intros e w w' Hstep. destruct (step_transmission e w w' Hstep)
      as [Hw | (h & request & decision & Hws & Hui & Hw & _)]; [left; assumption |].
    right. exists h, request, decision. auto.
Qed.

(** The panel sends an edit or a reject decision only for a request that
    allows it; the approve button is not tied to the request. *)
Lemma panel_decisions b w w' :
  step (ev_click b) w = Some w' →
  wire w' = wire w
  ∨ ∃ h request decision,
      uiState (store w) = awaiting_approval request
      ∧ wire w' = wire w ++ [(h, frame request decision)]
      ∧ (variant_of decision = Some (JStr "approve")
         ∨ (variant_of decision = Some (JStr "edit")
            ∧ includes (allowed_decisions request) "edit" = true)
         ∨ (variant_of decision = Some (JStr "reject")
            ∧ includes (allowed_decisions request) "reject" = true)).
Proof.
  intros Hstep. destruct (step_transmission _ w w' Hstep)
    as [Hw | (h & request & decision & Hws & Hui & Hw & _ & Ho)]; [left; assumption |].
  right. exists h, request, decision. repeat split; try assumption.
  destruct Ho as [[=] | [[_ ->] | [(_ & Hcan & parsed & _ & ->) | (_ & Hcan & ->)]]]; auto.
Qed.

(** ** One decision per request *)

Lemma quiescent_not_awaiting w :
  is_awaiting (uiState (store w)) = false → quiescent w.
Proof. unfold quiescent, submit_enabled. intros ->. reflexivity. Qed.

Lemma quiescent_no_socket w : ws (store w) = None → quiescent w.
Proof. unfold quiescent, submit_enabled. intros ->. apply andb_false_r. Qed.

Lemma handleAgentStatus_cases data w :
  settle (handleAgentStatus data w) = w
  ∨ ∃ u, is_awaiting u = false
         ∧ settle (handleAgentStatus data w) = store_set (set_uiState u) w.
Proof.
  unfold handleAgentStatus. destruct data as [v|]; [| left; reflexivity].
  destruct v; try (left; reflexivity).
  destruct (strict_eq_string _ "completed"); [right; exists completed; split; reflexivity |].
  destruct (strict_eq_string _ "failed"); [right; eexists (error _); split; reflexivity |].
  destruct (strict_eq_string _ "running");
    [right; exists agent_running; split; reflexivity |].
  left. reflexivity.
Qed.

Lemma quiescent_connect sessionId' w : quiescent (connect sessionId' w).
Proof.
  unfold quiescent, submit_enabled, connect. simpl.
  rewrite list_lookup_middle by reflexivity. simpl. apply andb_false_r.
Qed.

Lemma quiescent_closing h sock w :
  heap w !! h = Some sock → readyState sock = OPEN →
  quiescent w → quiescent (set_heap_readyState h CLOSING w).
Proof.
  intros Hh Hr. unfold quiescent, submit_enabled, set_heap_readyState. rewrite Hh. simpl.
  destruct (is_awaiting (uiState (store w))); [| reflexivity]. simpl.
  destruct (ws (store w)) as [h'|]; [| reflexivity].
  destruct (decide (h' = h)) as [-> | Hne].
  - rewrite Hh, Hr. discriminate.
  - rewrite list_lookup_insert_ne by congruence. trivial.
Qed.

(** Closes a goal [quiescent w' ∧ wire w' = wire w] for a [w'] that
    has the projection, the socket, the heap and the wire of [w]. *)
Local Ltac unchanged :=
  split; [first [assumption | eapply quiescent_ext; [| | | eassumption]; reflexivity]
         | reflexivity].

(** Events other than the arrival of a request keep a quiescent client
    quiescent, and send nothing. *)
Lemma step_quiescent e w w' :
  quiescent w → is_approval_request e = false → step e w = Some w' →
  quiescent w' ∧ wire w' = wire w.
Proof.
  intros Hq Hne. destruct e; simpl.
  - unfold onClick.
    destruct (uiState (store w)) as [| |request| |message] eqn:Hui; try discriminate.
    destruct b; simpl.
    + destruct (isEditing (panel w)); [| discriminate]. intros [= <-]. unchanged.
    + destruct (isEditing (panel w)); [discriminate |]. intros [= <-].
      rewrite settle_handleApprove.
      destruct (submitDecision_quiescent decision_approve w Hq) as [-> | ->]; unchanged.
    + destruct (canEdit request); [| discriminate]. intros [= <-].
      unfold handleEdit. destruct (isEditing (panel w)).
      * destruct (JSON_parse (editedArgs (panel w))) as [parsed|].
        -- destruct (submitDecision_quiescent (decision_edit request parsed) w Hq)
             as [-> | ->]; unchanged.
        -- unchanged.
      * unchanged.
    + destruct (canReject request); [| discriminate].
      destruct (isEditing (panel w)); [discriminate |]. intros [= <-].
      rewrite settle_handleReject.
      destruct (submitDecision_quiescent decision_reject w Hq) as [-> | ->]; unchanged.
  - unfold onChange. destruct (uiState (store w)); try discriminate.
    destruct (isEditing (panel w)); [| discriminate]. intros [= <-]. unchanged.
  - intros [= <-]. split; [apply quiescent_connect | reflexivity].
  - intros [= <-]. unfold disconnect. destruct (ws (store w)) as [h|] eqn:Hws.
    + split; [apply quiescent_no_socket; reflexivity |]. simpl. apply ws_close_wire.
    + auto.
  - intros [= <-]. destruct (submitDecision_quiescent decision w Hq) as [-> | ->]; auto.
  - intros [= <-]. unchanged.
  - intros [= <-]. unchanged.
  - intros [= <-]. unchanged.
  - intros [= <-]. unchanged.
  - intros [= <-]. unchanged.
  - intros [= <-]. unchanged.
  - intros [= <-]. destruct which; unchanged.
  - intros [= <-]. unchanged.
  - destruct (heap w !! h) as [sock|]; [| discriminate].
    destruct (readyState sock); try discriminate. intros [= <-].
    split; [apply quiescent_not_awaiting; reflexivity |].
    simpl. apply set_heap_readyState_wire.
  - destruct (heap w !! h) as [sock|]; [| discriminate].
    destruct (readyState sock); try discriminate. intros [= <-].
    destruct message; try discriminate; simpl.
    + destruct (handleAgentStatus_cases data w) as [-> | (u & Hu & ->)]; [auto |].
      split; [apply quiescent_not_awaiting; assumption | reflexivity].
    + unchanged.
    + unchanged.
    + unchanged.
  - destruct (heap w !! h) as [sock|] eqn:Hh; [| discriminate].
    destruct (readyState sock) eqn:Hr; try discriminate. intros [= <-].
    split; [apply (quiescent_closing h sock); assumption | apply set_heap_readyState_wire].
  - destruct (heap w !! h) as [sock|]; [| discriminate].
    destruct (readyState sock); try discriminate; intros [= <-];
      (split; [apply quiescent_no_socket; reflexivity |]);
      destruct failed; simpl; apply set_heap_readyState_wire.
Qed.

Lemma run_quiescent es : ∀ w w',
  quiescent w → no_approval_request es → run es w = Some w' →
  quiescent w' ∧ wire w' = wire w.
Proof.
  induction es as [| e es IH]; intros w w' Hq Hno; simpl.
  - intros [= <-]. auto.
  - destruct (step e w) as [w1|] eqn:Hstep; [| discriminate]. intros Hrun.
    inversion Hno as [| ? ? He Hes]; subst.
    destruct (step_quiescent e w w1 Hq He Hstep) as [Hq1 Hw1].
    destruct (IH w1 w' Hq1 Hes Hrun) as [Hq' Hw']. split; [assumption | congruence].
Qed.

Lemma run_at_most_one_frame es : ∀ w w',
  no_approval_request es → run es w = Some w' →
  (length (wire w') ≤ S (length (wire w)))%nat.
Proof.
  induction es as [| e es IH]; intros w w' Hno; simpl.
  - intros [= <-]. lia.
  - destruct (step e w) as [w1|] eqn:Hstep; [| discriminate]. intros Hrun.
    inversion Hno as [| ? ? He Hes]; subst.
    destruct (step_transmission e w w1 Hstep)
      as [Hw | (h & request & decision & _ & _ & Hw & Hq & _)].
    + rewrite <- Hw. apply IH; assumption.
    + destruct (run_quiescent es w1 w' Hq Hes Hrun) as [_ ->].
      rewrite Hw, length_app. simpl. lia.
Qed.

(** C4, as the code has it: at most one decision per displayed request,
    and exactly one when [submitDecision] is called for it on an open
    socket.  After any call of [submitDecision] the client is quiescent, as
    it is whenever no request is displayed or the store has no socket; from
    a quiescent client, until the next request arrives, no event puts a
    frame on the wire and every call of [submitDecision] leaves the whole
    world as it is; between two arrivals at most one frame is sent; and a
    call for the displayed request on an open socket sends its frame, which
    stays the only one until the next request arrives. *)
Theorem one_decision_per_request :
  (∀ w decision, quiescent (settle (submitDecision decision w)))
  ∧ (∀ w, ws (store w) = None ∨ is_awaiting (uiState (store w)) = false → quiescent w)
  ∧ (∀ w es w',
       quiescent w → no_approval_request es → run es w = Some w' →
       wire w' = wire w
       ∧ ∀ decision, settle (submitDecision decision w') = w')
  ∧ (∀ w es w',
       no_approval_request es → run es w = Some w' →
       (length (wire w') ≤ S (length (wire w)))%nat)
  ∧ (∀ w decision h sock request es w',
       ws (store w) = Some h →
       heap w !! h = Some sock →
       readyState sock = OPEN →
       uiState (store w) = awaiting_approval request →
       no_approval_request es →
       run (ev_submitDecision decision :: es) w = Some w' →
       wire w' =
         wire w ++
         [(h, JSON_stringify
                (JObj [("type", JStr "approval_decision");
                       ("request_id", JStr (request_id request));
                       ("decision", decision)]))]
       ∧ ∀ decision', settle (submitDecision decision' w') = w').
Proof.
  split; [| split; [| split; [| split]]].
  - intros w decision. apply quiescent_after_submitDecision.
  - intros w [Hws | Haw]; [apply quiescent_no_socket | apply quiescent_not_awaiting];
      assumption.
  - intros w es w' Hq Hno Hrun.
    destruct (run_quiescent es w w' Hq Hno Hrun) as [Hq' Hw']. split; [assumption |].
    intros decision.
    destruct (submitDecision_quiescent decision w' Hq') as [-> | ->]; reflexivity.
  - intros w es w'. apply run_at_most_one_frame.
  - intros w decision h sock request es w' Hws Hh Hr Hui Hno. simpl.
    rewrite (submitDecision_awaiting _ _ _ _ Hws Hui), (ws_send_open _ _ _ _ Hh Hr).
    simpl. intros Hrun.
    destruct (run_quiescent es _ w' (quiescent_resumed _) Hno Hrun) as [Hq' Hw'].
    split; [exact Hw' |].
    intros decision'.
    destruct (submitDecision_quiescent decision' w' Hq') as [-> | ->]; reflexivity.
Qed.

(** ** The highlight projection *)

Section SetFacts.
Context {A : Type} `{EqDecision A}.
Implicit Types (x y : A) (s xs : list A).

Lemma elem_of_set_add s x y : y ∈ set_add s x ↔ y ∈ s ∨ y = x.
Proof.
  unfold set_add, set_has. case_bool_decide as Hin.
  - split; [auto | intros [? | ->]; assumption].
  - rewrite elem_of_app, list_elem_of_singleton. reflexivity.
Qed.

Lemma NoDup_set_add s x : NoDup s → NoDup (set_add s x).
Proof.
  intros Hs. unfold set_add, set_has. case_bool_decide as Hin; [assumption |].
  apply NoDup_app. split; [assumption |]. split; [| apply NoDup_singleton].
  intros y Hy ->%list_elem_of_singleton. contradiction.
Qed.

Lemma head_set_add s x : s ≠ [] → head (set_add s x) = head s.
Proof.
  intros Hs. unfold set_add. destruct (set_has x s); [reflexivity |].
  destruct s; [contradiction | reflexivity].
Qed.

Lemma set_add_nonempty s x : set_add s x ≠ [].
Proof.
  unfold set_add. destruct (set_has x s) eqn:Hin.
  - intros ->. unfold set_has in Hin. apply bool_decide_eq_true in Hin.
    apply elem_of_nil in Hin. contradiction.
  - destruct s; discriminate.
Qed.

Lemma elem_of_set_add_all xs : ∀ s y, y ∈ set_add_all s xs ↔ y ∈ s ∨ y ∈ xs.
Proof.
  unfold set_add_all. induction xs as [| x xs IH]; intros s y; simpl.
  - rewrite elem_of_nil. tauto.
  - rewrite IH, elem_of_set_add, elem_of_cons. tauto.
Qed.

Lemma NoDup_set_add_all xs : ∀ s, NoDup s → NoDup (set_add_all s xs).
Proof.
  unfold set_add_all. induction xs as [| x xs IH]; intros s Hs; simpl; [assumption |].
  apply IH, NoDup_set_add, Hs.
Qed.

Lemma head_set_add_all xs : ∀ s, s ≠ [] → head (set_add_all s xs) = head s.
Proof.
  unfold set_add_all. induction xs as [| x xs IH]; intros s Hs; simpl; [reflexivity |].
  rewrite IH by apply set_add_nonempty. apply head_set_add, Hs.
Qed.

Lemma elem_of_new_Set xs y : y ∈ new_Set xs ↔ y ∈ xs.
Proof. unfold new_Set. rewrite elem_of_set_add_all, elem_of_nil. tauto. Qed.

Lemma NoDup_new_Set xs : NoDup (new_Set xs).
Proof. apply NoDup_set_add_all, NoDup_nil_2. Qed.

(** [Array.from(new Set(xs))[0]] is the first element of [xs]. *)
Lemma head_new_Set xs : head (new_Set xs) = head xs.
Proof.
  destruct xs as [| x xs]; [reflexivity |].
  unfold new_Set, set_add_all. simpl.
  change (foldl set_add (set_add [] x) xs) with (set_add_all (set_add [] x) xs).
  rewrite head_set_add_all by apply set_add_nonempty. reflexivity.
Qed.

Lemma new_Set_size xs : (0 < length (new_Set xs))%nat ↔ xs ≠ [].
Proof.
  destruct xs as [| x xs]; [simpl; split; [lia | contradiction] |].
  split; [discriminate | intros _].
  pose proof (head_new_Set (x :: xs)) as Hh.
  destruct (new_Set (x :: xs)); [discriminate | simpl; lia].
Qed.

End SetFacts.

(** After the first loop the entry of a document is the page set of the
    last document highlight that names it. *)
Lemma document_pages_lookup dhs d :
  document_pages dhs !! d =
    (λ dh, new_Set (legally_significant_pages dh)) <$> last_document_highlight d dhs.
Proof.
  unfold document_pages, last_document_highlight.
  induction dhs as [| dh dhs IH] using rev_ind; [reflexivity |].
  rewrite foldl_app, filter_app. simpl.
  destruct (decide (dh_doc_id dh = d)) as [<- | Hne].
  - rewrite lookup_insert_eq, filter_cons_True, filter_nil by reflexivity.
    rewrite last_snoc. reflexivity.
  - rewrite lookup_insert_ne, filter_cons_False, filter_nil, app_nil_r by assumption.
    exact IH.
Qed.

(** The second loop adds the pages of each page highlight to the entry of
    its document. *)
Lemma add_page_highlights_lookup phs : ∀ start d n,
  n ∈ default [] (add_page_highlights phs start !! d) ↔
    n ∈ default [] (start !! d)
    ∨ ∃ ph, ph ∈ phs ∧ ph_doc_id ph = d ∧ n ∈ page_nums ph.
Proof.
  unfold add_page_highlights.
  induction phs as [| ph phs IH]; intros start d n; simpl.
  - split; [auto | intros [? | (ph & Hin & _)]; [assumption |]].
    apply elem_of_nil in Hin. contradiction.
  - rewrite IH. destruct (decide (ph_doc_id ph = d)) as [<- | Hne].
    + rewrite lookup_insert_eq. simpl. rewrite elem_of_set_add_all. split.
      * intros [[Hs | Hp] | (ph' & Hin & Hd & Hn)]; [left; assumption | |].
        -- right. exists ph. rewrite elem_of_cons. auto.
        -- right. exists ph'. rewrite elem_of_cons. auto.
      * intros [Hs | (ph' & Hin & Hd & Hn)]; [auto |].
        apply elem_of_cons in Hin as [-> | Hin]; [auto |].
        right. exists ph'. auto.
    + rewrite lookup_insert_ne by assumption. split.
      * intros [Hs | (ph' & Hin & Hd & Hn)]; [auto |].
        right. exists ph'. rewrite elem_of_cons. auto.
      * intros [Hs | (ph' & Hin & Hd & Hn)]; [auto |].
        apply elem_of_cons in Hin as [-> | Hin]; [contradiction |].
        right. exists ph'. auto.
Qed.

Lemma add_page_highlights_dom phs : ∀ start d,
  is_Some (add_page_highlights phs start !! d) ↔
    is_Some (start !! d) ∨ ∃ ph, ph ∈ phs ∧ ph_doc_id ph = d.
Proof.
  unfold add_page_highlights.
  induction phs as [| ph phs IH]; intros start d; simpl.
  - split; [auto | intros [? | (ph & Hin & _)]; [assumption |]].
    apply elem_of_nil in Hin. contradiction.
  - rewrite IH, lookup_insert_is_Some. split.
    + intros [[<- | [_ Hs]] | (ph' & Hin & Hd)]; [| auto |].
      * right. exists ph. rewrite elem_of_cons. auto.
      * right. exists ph'. rewrite elem_of_cons. auto.
    + intros [Hs | (ph' & Hin & Hd)].
      * destruct (decide (ph_doc_id ph = d)); auto.
      * apply elem_of_cons in Hin as [-> | Hin]; [auto |].
        right. exists ph'. auto.
Qed.

Lemma last_document_highlight_Some d dhs dh :
  last_document_highlight d dhs = Some dh → dh ∈ dhs ∧ dh_doc_id dh = d.
Proof.
  unfold last_document_highlight. intros Hl.
  assert (dh ∈ filter (λ dh, dh_doc_id dh = d) dhs) as Hin.
  { destruct (filter (λ dh, dh_doc_id dh = d) dhs) as [| x l] using rev_ind;
      [discriminate |].
    rewrite last_snoc in Hl. injection Hl as ->. rewrite elem_of_app, list_elem_of_singleton.
    auto. }
  apply list_elem_of_filter in Hin. tauto.
Qed.

Lemma last_document_highlight_is_Some d dhs :
  is_Some (last_document_highlight d dhs) ↔ ∃ dh, dh ∈ dhs ∧ dh_doc_id dh = d.
Proof.
  split.
  - intros [dh Hdh]. exists dh. apply last_document_highlight_Some. assumption.
  - intros (dh & Hin & Hd). unfold last_document_highlight.
    assert (dh ∈ filter (λ dh, dh_doc_id dh = d) dhs) as Hf
        by (apply list_elem_of_filter; auto).
    destruct (filter (λ dh, dh_doc_id dh = d) dhs) as [| x l] using rev_ind.
    + apply elem_of_nil in Hf. contradiction.
    + rewrite last_snoc. eauto.
Qed.

(** The pages highlighted for a document after [handleApprovalRequest]. *)
Lemma handleApprovalRequest_pages request w d n :
  n ∈ pages_of (store (handleApprovalRequest request w)) d ↔
    (∃ dh, last_document_highlight d (document_highlights request) = Some dh
           ∧ n ∈ legally_significant_pages dh)
    ∨ (∃ ph, ph ∈ page_highlights request ∧ ph_doc_id ph = d ∧ n ∈ page_nums ph).
Proof.
  unfold pages_of. simpl. rewrite add_page_highlights_lookup, document_pages_lookup.
  split.
  - intros [Hn | Hn]; [left | right; assumption].
    destruct (last_document_highlight d (document_highlights request)) as [dh|];
      [| apply elem_of_nil in Hn; contradiction].
    exists dh. split; [reflexivity |].
    exact (proj1 (elem_of_new_Set (legally_significant_pages dh) n) Hn).
  - intros [(dh & -> & Hn) | Hn]; [left | right; assumption].
    exact (proj2 (elem_of_new_Set (legally_significant_pages dh) n) Hn).
Qed.

(** C2, as the code has it: on an [approval_request] the highlighted
    documents are the [doc_id]s of the document highlights, the highlighted
    files the [file_path]s of the file highlights, and the pages highlighted
    for a document are the [legally_significant_pages] of the last document
    highlight listed for it together with the [page_nums] of all its page
    highlights; the map has an entry exactly for the documents some
    highlight names. *)
Theorem handleApprovalRequest_highlights request w :
  let st' := store (handleApprovalRequest request w) in
  (∀ d, d ∈ highlightedDocumentIds st' ↔
        ∃ dh, dh ∈ document_highlights request ∧ dh_doc_id dh = d)
  ∧ NoDup (highlightedDocumentIds st')
  ∧ (∀ f, f ∈ highlightedFilePaths st' ↔
          ∃ fh, fh ∈ file_highlights request ∧ file_path fh = f)
  ∧ NoDup (highlightedFilePaths st')
  ∧ (∀ d n, n ∈ pages_of st' d ↔
            (∃ dh, last_document_highlight d (document_highlights request) = Some dh
                   ∧ n ∈ legally_significant_pages dh)
            ∨ (∃ ph, ph ∈ page_highlights request ∧ ph_doc_id ph = d
                     ∧ n ∈ page_nums ph))
  ∧ (∀ d, is_Some (highlightedPages st' !! d) ↔
          (∃ dh, dh ∈ document_highlights request ∧ dh_doc_id dh = d)
          ∨ (∃ ph, ph ∈ page_highlights request ∧ ph_doc_id ph = d)).
Proof.
  simpl. repeat split.
  - intros Hd. apply elem_of_new_Set, list_elem_of_fmap in Hd as (dh & -> & Hin). eauto.
  - intros (dh & Hin & <-). apply elem_of_new_Set, list_elem_of_fmap. eauto.
  - apply NoDup_new_Set.
  - intros Hf. apply elem_of_new_Set, list_elem_of_fmap in Hf as (fh & -> & Hin). eauto.
  - intros (fh & Hin & <-). apply elem_of_new_Set, list_elem_of_fmap. eauto.
  - apply NoDup_new_Set.
  - apply handleApprovalRequest_pages.
  - apply handleApprovalRequest_pages.
  - rewrite add_page_highlights_dom, document_pages_lookup, fmap_is_Some,
      last_document_highlight_is_Some. trivial.
  - rewrite add_page_highlights_dom, document_pages_lookup, fmap_is_Some,
      last_document_highlight_is_Some. trivial.
Qed.

Lemma NoDup_map_inj_on {A B} (f : A → B) (l : list A) x y :
  NoDup (map f l) → x ∈ l → y ∈ l → f x = f y → x = y.
Proof.
  induction l as [| a l IH]; simpl; intros Hnd Hx Hy Hf.
  - apply elem_of_nil in Hx. contradiction.
  - apply NoDup_cons in Hnd as [Hna Hnd].
    apply elem_of_cons in Hx as [-> | Hx], Hy as [-> | Hy]; auto.
    + exfalso. apply Hna. rewrite Hf. apply list_elem_of_fmap. eauto.
    + exfalso. apply Hna. rewrite <- Hf. apply list_elem_of_fmap. eauto.
Qed.

(** When no two document highlights of a request name the same document,
    the pages are the union the specification describes. *)
Lemma handleApprovalRequest_pages_distinct request w d n :
  NoDup (map dh_doc_id (document_highlights request)) →
  n ∈ pages_of (store (handleApprovalRequest request w)) d ↔
    spec_highlighted_page request d n.
Proof.
  intros Hnd. rewrite handleApprovalRequest_pages. unfold spec_highlighted_page.
  assert (∀ dh, dh ∈ document_highlights request → dh_doc_id dh = d →
                last_document_highlight d (document_highlights request) = Some dh) as Hlast.
  { intros dh Hin Hd.
    destruct (last_document_highlight d (document_highlights request)) as [dh'|] eqn:Hl.
    - apply last_document_highlight_Some in Hl as [Hin' Hd'].
      f_equal.
      apply (NoDup_map_inj_on dh_doc_id (document_highlights request)); try assumption.
      congruence.
    - assert (is_Some (last_document_highlight d (document_highlights request))) as [? ?]
          by (apply last_document_highlight_is_Some; eauto).
      congruence. }
  split.
  - intros [(dh & Hl & Hn) | Hph]; [left | right; assumption].
    apply last_document_highlight_Some in Hl as [Hin Hd]. eauto.
  - intros [(dh & Hin & Hd & Hn) | Hph]; [left | right; assumption].
    exists dh. auto.
Qed.

(** C9: an arriving request with at least one document highlight selects
    the document of the first one when the application has no document
    selected, and any arriving request keeps the selection when it has one
    (the application's own test, [!currentSelected]: [null] and the empty
    id count as no selection). *)
Theorem handleApprovalRequest_selection request w :
  let st' := store (handleApprovalRequest request w) in
  (∀ dh rest,
     document_highlights request = dh :: rest →
     hasDocumentSelected (store w) = false →
     selectedDocumentId st' = Some (dh_doc_id dh))
  ∧ (hasDocumentSelected (store w) = true →
     selectedDocumentId st' = selectedDocumentId (store w)).
Proof.
  simpl. unfold hasDocumentSelected. split.
  - intros dh rest Hdhs Hsel. rewrite Hsel, andb_true_r.
    rewrite bool_decide_eq_true_2
      by (apply new_Set_size; rewrite Hdhs; discriminate).
    rewrite head_new_Set, Hdhs. reflexivity.
  - intros ->. rewrite andb_false_r. reflexivity.
Qed.

End Properties.

(** * The properties on concrete runs *)

(** C1 at a request that allows only [reject]: the approve button is
    rendered all the same, and a click on it puts an approve decision for
    the request on the wire. *)
Lemma approve_sent_when_not_allowed :
  let request := example_request ["reject"] in
  includes (allowed_decisions request) "approve" = false
  ∧ ∃ w', run (platform := ref_platform)
              (arrival request ++ [ev_click btn_approve]) initial_world = Some w'
          ∧ wire w' =
              [(0%nat, RefJSON.stringify
                         (JObj [("type", JStr "approval_decision");
                                ("request_id", JStr (request_id request));
                                ("decision", JObj [("type", JStr "approve")])]))].
Proof.
  split; [reflexivity |]. eexists. split; vm_compute; reflexivity.
Qed.

(** C2 against the specification's union: a request lists document d1
    twice, with page 1 and then with page 2; page 1 belongs to the union
    and is not highlighted. *)
Lemma later_document_highlight_replaces_earlier :
  spec_highlighted_page request_twice "d1" 1
  ∧ 1 ∉ pages_of (store (handleApprovalRequest request_twice initial_world)) "d1".
Proof.
  split.
  - left. eexists. split; [apply list_elem_of_here |]. split; [reflexivity |].
    apply list_elem_of_here.
  - intros Hin. vm_compute in Hin. apply list_elem_of_singleton in Hin. discriminate.
Qed.

(** C3 on the example: a reject decision for the displayed request. *)
Lemma submitDecision_clears_highlights_witness :
  ∃ w', submitDecision (platform := ref_platform) decision_reject world_awaiting = Normal w'
        ∧ highlightedDocumentIds (store w') = []
        ∧ highlightedPages (store w') = ∅
        ∧ highlightedFilePaths (store w') = []
        ∧ uiState (store w') = agent_running.
Proof.
  apply (submitDecision_clears_highlights (platform := ref_platform)
           decision_reject world_awaiting 0%nat socket_open
           (example_request ["approve"; "edit"; "reject"]));
    vm_compute; reflexivity.
Defined.

(** C4 against "exactly one": a request is displayed, the server starts
    to close the socket, the user clicks approve; the request leaves the
    screen and no decision was sent for it, nor can one be sent later. *)
Lemma approved_request_without_decision :
  let request := example_request ["approve"; "reject"] in
  ∃ w1 w',
    run (platform := ref_platform) (arrival request) initial_world = Some w1
    ∧ uiState (store w1) = awaiting_approval request
    ∧ run (platform := ref_platform) [ev_closing 0%nat; ev_click btn_approve] w1 = Some w'
    ∧ wire w' = []
    ∧ uiState (store w') = agent_running
    ∧ quiescent w'.
Proof.
  intros request. eexists. eexists.
  split; [vm_compute; reflexivity |]. split; [reflexivity |].
  split; [vm_compute; reflexivity |]. split; [reflexivity |].
  split; reflexivity.
Qed.

(** C4 on the example: the approval of the displayed request, then a
    second call, a status message, a new connection and a third call. *)
Lemma one_decision_per_request_witness :
  let request := example_request ["approve"; "reject"] in
  let w0 := after (arrival request) in
  let w := after (arrival request ++ [ev_click btn_approve]) in
  let es := [ev_submitDecision decision_reject;
             ev_message 0%nat (msg_agent_status (Some (JObj [("status", JStr "running")]))) "t2";
             ev_connect "s2";
             ev_submitDecision decision_approve] in
  let w' := after (arrival request ++ [ev_click btn_approve] ++ es) in
  let w'' := after (arrival request ++ ev_submitDecision decision_approve :: es) in
  (wire w' = wire w
   ∧ ∀ decision, settle (submitDecision (platform := ref_platform) decision w') = w')
  ∧ (wire w'' =
       wire w0 ++
       [(0%nat, RefJSON.stringify
                  (JObj [("type", JStr "approval_decision");
                         ("request_id", JStr (request_id request));
                         ("decision", JObj [("type", JStr "approve")])]))]
     ∧ ∀ decision, settle (submitDecision (platform := ref_platform) decision w'') = w'').
Proof.
  intros request w0 w es w' w''.
  destruct (one_decision_per_request (platform := ref_platform))
    as (_ & _ & Hquiet & _ & Hsent).
  split.
  - apply (Hquiet w es w').
    + vm_compute. reflexivity.
    + repeat constructor.
    + vm_compute. reflexivity.
  - apply (Hsent w0 decision_approve 0%nat socket_open request es w'').
    + vm_compute. reflexivity.
    + vm_compute. reflexivity.
    + reflexivity.
    + vm_compute. reflexivity.
    + repeat constructor.
    + vm_compute. reflexivity.
Defined.

(** C5 on the example: the user confirms an edit that is not JSON. *)
Lemma handleEdit_invalid_json_witness :
  let request := example_request ["approve"; "edit"; "reject"] in
  let w := world_editing "{bad json" in
  ∃ w', handleEdit (platform := ref_platform) request w = Normal w'
        ∧ wire w' = wire w
        ∧ isEditing (panel w') = true
        ∧ editedArgs (panel w') = editedArgs (panel w)
        ∧ uiState (store w') = awaiting_approval request
        ∧ store w' = store w
        ∧ alerts w' = alerts w ++ [invalid_json_alert].
Proof.
  intros request w.
  apply (handleEdit_invalid_json (platform := ref_platform) request w);
    vm_compute; reflexivity.
Defined.

(** C6 against the specification's [Edit{ edited_args }]: the frame of a
    confirmed edit is not the envelope of that variant, and the decision in
    it has no member [edited_args]. *)
Lemma edit_decision_has_no_edited_args :
  let request := example_request ["approve"; "edit"; "reject"] in
  let w := world_editing example_edit_text in
  let w' := settle (handleEdit (platform := ref_platform) request w) in
  isEditing (panel w) = true
  ∧ RefJSON.parse (editedArgs (panel w)) = Some example_edit_parsed
  ∧ ∃ sent,
      wire w' = [(0%nat, sent)]
      ∧ sent ≠ RefJSON.stringify
                 (approval_decision (request_id request)
                    (spec_decision_edit example_edit_parsed))
      ∧ (RefJSON.parse sent ≫= prop "decision") ≫= prop "edited_args" = None.
Proof.
  intros request w w'. split; [vm_compute; reflexivity |].
  split; [vm_compute; reflexivity |].
  eexists. split; [vm_compute; reflexivity |].
  split; [| vm_compute; reflexivity].
  apply String.eqb_neq. vm_compute. reflexivity.
Qed.

(** C6 on the example: the frame of the confirmed edit. *)
Lemma handleEdit_valid_json_witness :
  let request := example_request ["approve"; "edit"; "reject"] in
  let w := world_editing example_edit_text in
  ∃ w', handleEdit (platform := ref_platform) request w = Normal w'
        ∧ wire w' =
            wire w ++
            [(0%nat, RefJSON.stringify
                       (JObj [("type", JStr "approval_decision");
                              ("request_id", JStr (request_id request));
                              ("decision",
                               JObj [("type", JStr "edit");
                                     ("edited_action",
                                      JObj [("name", JStr (tool_name request));
                                            ("args", example_edit_parsed)])])]))].
Proof.
  intros request w.
  apply (handleEdit_valid_json (platform := ref_platform)
           request w 0%nat socket_open example_edit_parsed);
    vm_compute; reflexivity.
Defined.

(** C7 on the example: the frame of a call for the displayed request, and
    the frame of a click on the reject button. *)
Lemma transmitted_frame_is_envelope_witness :
  let w := world_awaiting in
  let w' := after (arrival (example_request ["approve"; "edit"; "reject"])
                   ++ [ev_click btn_reject]) in
  (∃ w1, submitDecision (platform := ref_platform) decision_approve w = Normal w1
         ∧ wire w1 =
             wire w ++
             [(0%nat, RefJSON.stringify
                        (JObj [("type", JStr "approval_decision");
                               ("request_id", JStr "req-1");
                               ("decision", JObj [("type", JStr "approve")])]))])
  ∧ (∃ h request decision,
       ws (store w) = Some h
       ∧ uiState (store w) = awaiting_approval request
       ∧ wire w' =
           wire w ++
           [(h, RefJSON.stringify
                  (JObj [("type", JStr "approval_decision");
                         ("request_id", JStr (request_id request));
                         ("decision", decision)]))]).
Proof.
  intros w w'.
  destruct (transmitted_frame_is_envelope (platform := ref_platform)) as [Hsend Hshape].
  split.
  - apply (Hsend decision_approve w 0%nat socket_open
             (example_request ["approve"; "edit"; "reject"]));
      vm_compute; reflexivity.
  - destruct (Hshape (ev_click btn_reject) w w') as [Hsame | Hframe].
    + vm_compute. reflexivity.
    + exfalso. vm_compute in Hsame. discriminate.
    + exact Hframe.
Defined.

(** C8 on the example: a failed run reported with details. *)
Lemma handleAgentStatus_projection_witness :
  let data := Some (JObj [("status", JStr "failed"); ("details", JStr "out of credit")]) in
  uiState (store (settle (handleAgentStatus data world_awaiting)))
  = error (Some (JStr "out of credit")).
Proof.
  intros data.
  exact (proj1 (proj2 (handleAgentStatus_projection data world_awaiting)) eq_refl).
Defined.

(** C9 on the example: nothing is selected when the request arrives. *)
Lemma handleApprovalRequest_selection_witness :
  let request := example_request ["approve"; "edit"; "reject"] in
  hasDocumentSelected (store initial_world) = false
  ∧ selectedDocumentId (store (handleApprovalRequest request initial_world)) = Some "d1".
Proof.
  intros request. split; [reflexivity |].
  exact (proj1 (handleApprovalRequest_selection request initial_world)
           example_documents [] eq_refl eq_refl).
Defined.

(** C10 on the example: the approval of the displayed request. *)
Lemma submitDecision_frame_witness :
  let w := world_awaiting in
  let w' := settle (submitDecision (platform := ref_platform) decision_approve w) in
  wire w' ≠ wire w
  ∧ sessionId (store w') = sessionId (store w)
  ∧ ws (store w') = ws (store w)
  ∧ documents (store w') = documents (store w)
  ∧ selectedDocumentId (store w') = selectedDocumentId (store w)
  ∧ selectedDocumentDetail (store w') = selectedDocumentDetail (store w)
  ∧ files (store w') = files (store w)
  ∧ selectedFilePath (store w') = selectedFilePath (store w)
  ∧ currentPdfPage (store w') = currentPdfPage (store w)
  ∧ todos (store w') = todos (store w)
  ∧ workflowEvents (store w') = workflowEvents (store w)
  ∧ leftPanelWidth (store w') = leftPanelWidth (store w)
  ∧ rightPanelWidth (store w') = rightPanelWidth (store w)
  ∧ centerTopHeight (store w') = centerTopHeight (store w).
Proof.
  intros w w'. split; [vm_compute; discriminate |].
  apply (submitDecision_frame (platform := ref_platform) decision_approve w w').
  vm_compute. reflexivity.
Defined.

(** * Properties of the rest of the application *)

Section MoreProperties.
Context `{platform : Platform}.

(** ** Layout *)

(** X1: the three widths [App] computes always add up to 100 percent; the
    left panel is 40 wide exactly when a document is selected, the right
    panel exactly when a file is, and the centre never gets less than 20. *)
Theorem layout_widths st :
  leftWidth (layout st) + centerWidth (layout st) + rightWidth (layout st) = 100
  ∧ leftWidth (layout st) = (if hasDocumentSelected st then 40 else 20)
  ∧ rightWidth (layout st) = (if hasFileSelected st then 40 else 20)
  ∧ (20 ≤ centerWidth (layout st))%Z.
Proof.
  unfold layout. destruct (hasDocumentSelected st), (hasFileSelected st); simpl;
    repeat split; lia.
Qed.

(** ** Page navigation *)

Lemma navigate_page b w :
  selectedDocumentDetail (store (navigate b w)) = selectedDocumentDetail (store w)
  ∧ ((1 ≤ currentPdfPage (store w))%Z → (1 ≤ currentPdfPage (store (navigate b w)))%Z)
  ∧ (∀ detail, selectedDocumentDetail (store w) = Some detail →
               (currentPdfPage (store w) ≤ page_count detail)%Z →
               (currentPdfPage (store (navigate b w)) ≤ page_count detail)%Z).
Proof.
  destruct b; simpl; unfold handlePrevPage, handleNextPage.
  - destruct (Z.ltb_spec 1 (currentPdfPage (store w))); simpl;
      (split; [reflexivity |]); split; intros; lia.
  - destruct (selectedDocumentDetail (store w)) as [detail|] eqn:Hd.
    + destruct (Z.ltb_spec (currentPdfPage (store w)) (page_count detail)); simpl;
        (split; [assumption |]); (split; [intros; lia |]);
        intros d' Hd'; assert (d' = detail) as -> by congruence; intros; lia.
    + split; [assumption |]. split; [auto | intros d' Hd']. discriminate.
Qed.

(** X2: the previous and next buttons never leave the document: from a
    page between 1 and the page count of the loaded detail, any sequence
    of the two handlers ends on such a page; the lower bound holds even
    without a loaded detail. *)
Theorem navigation_stays_in_range (bs : list NavButton) (w : World) :
  let w' := foldl (λ w b, navigate b w) w bs in
  ((1 ≤ currentPdfPage (store w))%Z → (1 ≤ currentPdfPage (store w'))%Z)
  ∧ (∀ detail, selectedDocumentDetail (store w) = Some detail →
               (currentPdfPage (store w) ≤ page_count detail)%Z →
               (currentPdfPage (store w') ≤ page_count detail)%Z).
Proof.
  revert w. induction bs as [| b bs IH]; intros w; simpl; [auto |].
  destruct (navigate_page b w) as (Hd & Hlo & Hhi).
  destruct (IH (navigate b w)) as [IHlo IHhi]. split.
  - intros H1. apply IHlo, Hlo, H1.
  - intros detail Hdet Hle. apply IHhi; [congruence |]. apply Hhi; assumption.
Qed.

(** X3: next undoes previous and previous undoes next, on the whole
    world, wherever the first of the two moves. *)
Theorem prev_next_round_trip (w : World) (detail : DocumentDetail) :
  selectedDocumentDetail (store w) = Some detail →
  ((1 < currentPdfPage (store w) ≤ page_count detail)%Z →
   handleNextPage (handlePrevPage w) = w)
  ∧ ((1 ≤ currentPdfPage (store w) < page_count detail)%Z →
     handlePrevPage (handleNextPage w) = w).
Proof.
  destruct w as [st hp wr al pn]. destruct st. simpl. intros ->.
  unfold handleNextPage, handlePrevPage. simpl. split; intros [H1 H2].
  - rewrite (proj2 (Z.ltb_lt 1 _)) by lia. simpl.
    rewrite (proj2 (Z.ltb_lt _ (page_count detail))) by lia.
    unfold store_set, with_store, set_currentPdfPage. simpl. do 2 f_equal. lia.
  - rewrite (proj2 (Z.ltb_lt _ (page_count detail))) by lia. simpl.
    rewrite (proj2 (Z.ltb_lt 1 _)) by lia.
    unfold store_set, with_store, set_currentPdfPage. simpl. do 2 f_equal. lia.
Qed.

(** X4: a page counts as legally significant exactly when the loaded
    detail lists it with the flag set (page numbers being listed once);
    without a loaded detail no page does. *)
Theorem isPageLegallySignificant_iff (st : AppState) (pageNum : Z) :
  (selectedDocumentDetail st = None → isPageLegallySignificant st pageNum = false)
  ∧ (∀ detail,
       selectedDocumentDetail st = Some detail →
       NoDup (map num (detail_pages detail)) →
       (isPageLegallySignificant st pageNum = true ↔
        ∃ page, page ∈ detail_pages detail ∧ num page = pageNum
                ∧ legally_significant page = true)).
Proof.
  unfold isPageLegallySignificant. split; [intros ->; reflexivity |].
  intros detail -> Hnd.
  induction (detail_pages detail) as [| p ps IH]; simpl.
  - split; [discriminate | intros (page & Hin & _)]. apply elem_of_nil in Hin. contradiction.
  - simpl in Hnd. apply NoDup_cons in Hnd as [Hp Hnd].
    destruct (Z.eqb_spec (num p) pageNum) as [Heq | Hne].
    + split.
      * intros Hs. exists p. rewrite elem_of_cons. auto.
      * intros (page & Hin & Hn & Hs).
        apply elem_of_cons in Hin as [-> | Hin]; [assumption |].
        exfalso. apply Hp. rewrite Heq, <- Hn. apply list_elem_of_fmap. eauto.
    + rewrite (IH Hnd). split.
      * intros (page & Hin & Hn & Hs). exists page. rewrite elem_of_cons. auto.
      * intros (page & Hin & Hn & Hs).
        apply elem_of_cons in Hin as [-> | Hin]; [contradiction |]. eauto.
Qed.

(** X5: after a request arrived, the viewer marks a page of the selected
    document as requested exactly when it is a significant page of the last
    document highlight of that document or a page of one of its page
    highlights. *)
Theorem viewer_marks_requested_pages request w d pageNum :
  let st' := store (handleApprovalRequest request w) in
  selectedDocumentId st' = Some d →
  d ≠ EmptyString →
  (isPageHighlighted st' pageNum = true ↔
   (∃ dh, last_document_highlight d (document_highlights request) = Some dh
          ∧ pageNum ∈ legally_significant_pages dh)
   ∨ (∃ ph, ph ∈ page_highlights request ∧ ph_doc_id ph = d ∧ pageNum ∈ page_nums ph)).
Proof.
  intros st' Hsel Hd.
  rewrite <- (handleApprovalRequest_pages request w d pageNum).
  unfold isPageHighlighted, pages_of. fold st'. rewrite Hsel. simpl.
  apply String.eqb_neq in Hd. rewrite Hd. simpl.
  destruct (add_page_highlights _ _ !! d) as [s|]; simpl.
  - unfold set_has. apply bool_decide_eq_true.
  - split; [discriminate | intros Hin]. apply elem_of_nil in Hin. contradiction.
Qed.

End MoreProperties.

(** * Properties of the store and its handlers *)

Section StoreProperties.
Context `{platform : Platform}.

(** ** What an event can do *)

Lemma submitDecision_effect decision w :
  settle (submitDecision decision w) = w
  ∨ ∃ l, settle (submitDecision decision w) = store_set resumed (with_wire l w).
Proof.
  destruct (submitDecision_cases decision w)
    as [[_ [-> | ->]] | (h & r & _ & _ & _ & [-> | ->])]; simpl; auto.
  - right. exists (wire w). reflexivity.
  - right. eexists. reflexivity.
Qed.

(** A click on the panel is a call of [submitDecision] or nothing, followed
    by changes to the panel and the alerts. *)
Lemma click_effect b w c :
  onClick b w = Some c →
  ∃ w1 al pn,
    (w1 = w ∨ ∃ l, w1 = store_set resumed (with_wire l w))
    ∧ is_awaiting (uiState (store w)) = true
    ∧ settle c = {| store := store w1; heap := heap w1; wire := wire w1;
                    alerts := al; panel := pn |}.
Proof.
  unfold onClick.
  destruct (uiState (store w)) as [| |request| |message] eqn:Hui; try discriminate.
  assert (∀ decision (after_ok after_throw : World → World) al1 pn1 al2 pn2,
            (∀ w1, after_ok w1 = {| store := store w1; heap := heap w1; wire := wire w1;
                                    alerts := al1 w1; panel := pn1 w1 |}) →
            (∀ w1, after_throw w1 = {| store := store w1; heap := heap w1; wire := wire w1;
                                       alerts := al2 w1; panel := pn2 w1 |}) →
            ∃ w1 al pn,
              (w1 = w ∨ ∃ l, w1 = store_set resumed (with_wire l w))
              ∧ true = true
              ∧ match submitDecision decision w with
                | Normal w2 => after_ok w2
                | Throw _ w2 => after_throw w2
                end = {| store := store w1; heap := heap w1; wire := wire w1;
                         alerts := al; panel := pn |}) as Hwrap.
  { intros decision after_ok after_throw al1 pn1 al2 pn2 Hok Hthrow.
    destruct (submitDecision_cases decision w)
      as [[_ [-> | ->]] | (h & r & _ & _ & _ & [-> | ->])].
    - exists w. eexists. eexists. split; [auto |]. split; [reflexivity | apply Hok].
    - exists w. eexists. eexists. split; [auto |]. split; [reflexivity | apply Hthrow].
    - eexists (store_set resumed (with_wire (wire w) w)). eexists. eexists.
      split; [eauto |]. split; [reflexivity | apply Hok].
    - eexists (store_set resumed (with_wire _ w)). eexists. eexists.
      split; [eauto |]. split; [reflexivity | apply Hok]. }
  destruct b.
  - destruct (isEditing (panel w)); [| discriminate]. intros [= <-].
    exists w. eexists. eexists. split; [auto |]. split; reflexivity.
  - destruct (isEditing (panel w)); [discriminate |]. intros [= <-].
    rewrite settle_handleApprove.
    apply (Hwrap decision_approve (setIsEditing false) (λ w, w)
                 alerts (λ w1, {| isEditing := false; editedArgs := editedArgs (panel w1) |})
                 alerts panel); intros [? ? ? ? ?]; reflexivity.
  - destruct (canEdit request); [| discriminate]. intros [= <-].
    destruct (isEditing (panel w)) eqn:Hed.
    + destruct (JSON_parse (editedArgs (panel w))) as [parsed|] eqn:Hparse.
      * rewrite (settle_handleEdit_parsed request w parsed Hed Hparse).
        apply (Hwrap (decision_edit request parsed) (setIsEditing false)
                     (alert invalid_json_alert)
                     alerts (λ w1, {| isEditing := false; editedArgs := editedArgs (panel w1) |})
                     (λ w1, alerts w1 ++ [invalid_json_alert]) panel);
          intros [? ? ? ? ?]; reflexivity.
      * unfold handleEdit. rewrite Hed, Hparse.
        exists w. eexists. eexists. split; [auto |]. split; reflexivity.
    + unfold handleEdit. rewrite Hed.
      exists w. eexists. eexists. split; [auto |]. split; reflexivity.
  - destruct (canReject request); [| discriminate].
    destruct (isEditing (panel w)); [discriminate |]. intros [= <-].
    rewrite settle_handleReject.
    apply (Hwrap decision_reject (setIsEditing false) (λ w, w)
                 alerts (λ w1, {| isEditing := false; editedArgs := editedArgs (panel w1) |})
                 alerts panel); intros [? ? ? ? ?]; reflexivity.
Qed.

Lemma run_app P :
  (∀ e w w', P w → step e w = Some w' → P w') →
  ∀ es w w', P w → run es w = Some w' → P w'.
Proof.
  intros Hstep es. induction es as [| e es IH]; intros w w' HP; simpl.
  - intros [= <-]. assumption.
  - destruct (step e w) as [w1|] eqn:He; [| discriminate]. intros Hrun.
    apply (IH w1); [apply (Hstep e w) |]; assumption.
Qed.

(** Which events touch the files, the selected file and the workflow log. *)
Lemma step_files_frame e w w' :
  step e w = Some w' →
  (files (store w') = files (store w)
   ∨ ∃ p c now, e = ev_updateFile p c now)
  ∧ (selectedFilePath (store w') = selectedFilePath (store w)
     ∨ ∃ p, e = ev_selectFile p)
  ∧ (workflowEvents (store w') = workflowEvents (store w)
     ∨ ∃ h type data now, e = ev_message h (msg_workflow_event type data) now).
Proof.
  destruct e; simpl.
  - destruct (onClick b w) as [c|] eqn:Hc; [| discriminate]. intros [= <-].
    destruct (click_effect b w c Hc) as (w1 & al & pn & [-> | [l ->]] & _ & ->);
      simpl; auto.
  - unfold onChange. destruct (uiState (store w)); try discriminate.
    destruct (isEditing (panel w)); [| discriminate]. intros [= <-]. simpl. auto.
  - intros [= <-]. simpl. auto.
  - intros [= <-]. unfold disconnect. destruct (ws (store w)) as [h|]; [| auto].
    unfold ws_close. destruct (heap w !! h) as [sock|]; [destruct (readyState sock) |];
      simpl; auto.
  - intros [= <-].
    destruct (submitDecision_effect decision w) as [-> | [l ->]]; simpl; auto.
  - intros [= <-]. simpl. auto.
  - intros [= <-]. simpl. auto.
  - intros [= <-]. simpl. eauto 10.
  - intros [= <-]. simpl. auto.
  - intros [= <-]. simpl. auto.
  - intros [= <-]. simpl. eauto 10.
  - intros [= <-]. destruct which; simpl; auto.
  - intros [= <-]. simpl. auto.
  - destruct (heap w !! h) as [sock|] eqn:Hh; [| discriminate].
    destruct (readyState sock); try discriminate. intros [= <-].
    unfold onopen, set_heap_readyState. rewrite Hh. simpl. auto.
  - destruct (heap w !! h) as [sock|] eqn:Hh; [| discriminate].
    destruct (readyState sock); try discriminate. intros [= <-].
    destruct message; simpl; eauto 10.
    destruct (handleAgentStatus_cases data w) as [-> | (u & _ & ->)]; simpl; auto.
  - destruct (heap w !! h) as [sock|] eqn:Hh; [| discriminate].
    destruct (readyState sock); try discriminate. intros [= <-].
    unfold set_heap_readyState. rewrite Hh. simpl. auto.
  - destruct (heap w !! h) as [sock|] eqn:Hh; [| discriminate].
    destruct (readyState sock); try discriminate; intros [= <-];
      unfold set_heap_readyState; rewrite Hh; destruct failed; simpl; auto.
Qed.

(** ** Files *)

(** X6: [updateFile] stores the file under its path with the new content
    and the time of the call, leaves every other file alone, and a second
    update of the same path replaces the first. *)
Theorem updateFile_lookup (p content' now : string) (w : World) :
  let st' := store (updateFile p content' now w) in
  files st' !! p = Some {| path := p; file_content := content'; updated_at := now |}
  ∧ (∀ k, k ≠ p → files st' !! k = files (store w) !! k)
  ∧ (∀ content0 now0,
       files (store (updateFile p content' now (updateFile p content0 now0 w))) = files st').
Proof.
  simpl. split; [apply lookup_insert_eq |]. split.
  - intros k Hk. apply lookup_insert_ne. congruence.
  - intros content0 now0. apply insert_insert_eq.
Qed.

Lemma files_keyed_by_path_step e w w' :
  files_keyed_by_path w → step e w = Some w' → files_keyed_by_path w'.
Proof.
  intros Hinv Hstep.
  destruct (step_files_frame e w w' Hstep) as ([Hf | (p & c & now & ->)] & _).
  - unfold files_keyed_by_path. rewrite Hf. exact Hinv.
  - simpl in Hstep. injection Hstep as <-. intros k file. simpl.
    destruct (decide (p = k)) as [-> | Hne].
    + rewrite lookup_insert_eq. intros [= <-]. reflexivity.
    + rewrite lookup_insert_ne by assumption. apply Hinv.
Qed.

(** X7: every file of the store sits under its own path: the property
    holds initially and no event breaks it, so the list of the editor never
    shows a file under a path other than the one it is looked up by. *)
Theorem files_stay_keyed_by_path (es : list Event) (w w' : World) :
  files_keyed_by_path w → run es w = Some w' → files_keyed_by_path w'.
Proof. apply (run_app files_keyed_by_path). intros e; apply files_keyed_by_path_step. Qed.

(** ** The workflow log *)

Lemma workflow_step e w w' :
  step e w = Some w' →
  workflowEvents (store w) `prefix_of` workflowEvents (store w').
Proof.
  intros Hstep.
  destruct (step_files_frame e w w' Hstep)
    as (_ & _ & [-> | (h & type & data & now & ->)]); [reflexivity |].
  simpl in Hstep. destruct (heap w !! h) as [sock|]; [| discriminate].
  destruct (readyState sock); try discriminate. injection Hstep as <-.
  simpl. apply prefix_app_r. reflexivity.
Qed.

(** X8: the workflow log is append-only: whatever happens, the events
    logged before are still there, in the same order, at the head of the
    log. *)
Theorem workflow_log_append_only (es : list Event) (w w' : World) :
  run es w = Some w' →
  workflowEvents (store w) `prefix_of` workflowEvents (store w').
Proof.
  revert w. induction es as [| e es IH]; intros w; simpl.
  - intros [= <-]. reflexivity.
  - destruct (step e w) as [w1|] eqn:He; [| discriminate]. intros Hrun.
    etransitivity; [apply (workflow_step e w w1 He) | apply IH, Hrun].
Qed.

(** A [workflow_event] message on an open socket appends exactly one
    entry, with the type and the data of the message and the time of
    arrival, and changes nothing else in the store. *)
Lemma workflow_event_logged h sock type data now w :
  heap w !! h = Some sock →
  readyState sock = OPEN →
  step (ev_message h (msg_workflow_event type data) now) w =
    Some (store_set
            (set_workflowEvents
               (workflowEvents (store w) ++
                [{| event_type := type; event_data := data; event_timestamp := now |}]))
            w).
Proof. intros Hh Hr. simpl. rewrite Hh, Hr. reflexivity. Qed.

End StoreProperties.

Section SessionProperties.
Context `{platform : Platform}.

(** ** Sockets and sessions *)

Lemma session_consistent_step e w w' :
  session_consistent w → step e w = Some w' → session_consistent w'.
Proof.
  unfold session_consistent. intros Hinv. destruct e; simpl.
  - destruct (onClick b w) as [c|] eqn:Hc; [| discriminate]. intros [= <-].
    destruct (click_effect b w c Hc) as (w1 & al & pn & [-> | [l ->]] & _ & ->);
      simpl; exact Hinv.
  - unfold onChange. destruct (uiState (store w)); try discriminate.
    destruct (isEditing (panel w)); [| discriminate]. intros [= <-]. exact Hinv.
  - intros [= <-] h. simpl. intros [= <-].
    rewrite list_lookup_middle by reflexivity. eauto.
  - intros [= <-] h. unfold disconnect.
    destruct (ws (store w)) as [h0|] eqn:Hws; [discriminate |].
    rewrite Hws. discriminate.
  - intros [= <-].
    destruct (submitDecision_effect decision w) as [-> | [l ->]]; exact Hinv.
  - intros [= <-]. exact Hinv.
  - intros [= <-]. exact Hinv.
  - intros [= <-]. exact Hinv.
  - intros [= <-]. exact Hinv.
  - intros [= <-]. exact Hinv.
  - intros [= <-]. exact Hinv.
  - intros [= <-]. destruct which; exact Hinv.
  - intros [= <-]. exact Hinv.
  - destruct (heap w !! h) as [sock|] eqn:Hh; [| discriminate].
    destruct (readyState sock); try discriminate. intros [= <-] h'.
    unfold onopen, set_heap_readyState. rewrite Hh. simpl. intros [= <-].
    rewrite list_lookup_insert_eq by (apply lookup_lt_Some in Hh; assumption). eauto.
  - destruct (heap w !! h) as [sock|] eqn:Hh; [| discriminate].
    destruct (readyState sock); try discriminate. intros [= <-].
    destruct message; simpl; try exact Hinv.
    destruct (handleAgentStatus_cases data w) as [-> | (u & _ & ->)]; exact Hinv.
  - destruct (heap w !! h) as [sock|] eqn:Hh; [| discriminate].
    destruct (readyState sock); try discriminate. intros [= <-] h'.
    unfold set_heap_readyState. rewrite Hh. simpl. intros Hws.
    destruct (Hinv h' Hws) as (sock' & Hh' & Hs).
    destruct (decide (h = h')) as [-> | Hne].
    + rewrite list_lookup_insert_eq by (apply lookup_lt_Some in Hh; assumption).
      eexists. split; [reflexivity |]. simpl. congruence.
    + rewrite list_lookup_insert_ne by assumption. eauto.
  - destruct (heap w !! h) as [sock|] eqn:Hh; [| discriminate].
    destruct (readyState sock); try discriminate; intros [= <-] h';
      unfold set_heap_readyState; rewrite Hh; destruct failed; simpl; discriminate.
Qed.

(** X9: whatever happens, the socket the store holds exists and was
    created for the session id the store shows. *)
Theorem session_stays_consistent (es : list Event) (w w' : World) :
  session_consistent w → run es w = Some w' → session_consistent w'.
Proof. apply (run_app session_consistent). intros e; apply session_consistent_step. Qed.

(** X10: [connect] creates a socket for the session at
    [WS_URL/ws/<session id>] and makes it the socket of the store without
    touching the sockets there are: the previous socket is not closed.
    Until the new socket opens no decision can be submitted. *)
Theorem connect_keeps_previous_sockets (session_id : string) (w : World) :
  let w' := connect session_id w in
  ws (store w') = Some (length (heap w))
  ∧ heap w' !! length (heap w) =
      Some {| url := WS_URL +:+ "/ws/" +:+ session_id;
              readyState := CONNECTING;
              closure_sessionId := session_id |}
  ∧ (∀ h, (h < length (heap w))%nat → heap w' !! h = heap w !! h)
  ∧ (∀ decision, settle (submitDecision decision w') = w').
Proof.
  simpl. split; [reflexivity |]. split; [apply list_lookup_middle; reflexivity |].
  split; [intros h Hh; apply lookup_app_l; assumption |].
  intros decision.
  destruct (submitDecision_quiescent decision (connect session_id w)
              (quiescent_connect session_id w)) as [-> | ->]; reflexivity.
Qed.

(** X11: a reconnection drops the displayed request: when the new socket
    opens the client shows [agent_running], and nothing was sent for the
    request. *)
Theorem reconnect_drops_request (session_id : string) (w : World) :
  ∃ w', run [ev_connect session_id; ev_open (length (heap w))] w = Some w'
        ∧ uiState (store w') = agent_running
        ∧ wire w' = wire w
        ∧ ws (store w') = Some (length (heap w))
        ∧ sessionId (store w') = Some session_id.
Proof.
  simpl. rewrite list_lookup_middle by reflexivity. simpl.
  eexists. split; [reflexivity |]. unfold set_heap_readyState. simpl.
  rewrite list_lookup_middle by reflexivity. simpl. auto.
Qed.

Lemma disconnect_no_socket w : ws (store (disconnect w)) = None.
Proof.
  unfold disconnect. destruct (ws (store w)) as [h|] eqn:Hws; [reflexivity | assumption].
Qed.

(** X12: [disconnect] leaves the store without a socket and is
    idempotent; without a socket it does nothing, the session id stays;
    after it no decision can be submitted. *)
Theorem disconnect_idempotent (w : World) :
  disconnect (disconnect w) = disconnect w
  ∧ ws (store (disconnect w)) = None
  ∧ (ws (store w) = None → disconnect w = w)
  ∧ (is_Some (ws (store w)) → sessionId (store (disconnect w)) = None)
  ∧ (∀ decision, submitDecision decision (disconnect w) = Normal (disconnect w)).
Proof.
  assert (∀ w0, ws (store w0) = None → disconnect w0 = w0) as Hnone
      by (intros w0 H0; unfold disconnect; rewrite H0; reflexivity).
  split; [apply Hnone, disconnect_no_socket |].
  split; [apply disconnect_no_socket |]. split; [apply Hnone |]. split.
  - intros [h Hws]. unfold disconnect. rewrite Hws. reflexivity.
  - intros decision. apply submitDecision_guard. left. apply disconnect_no_socket.
Qed.

(** X13: the close of any socket, the one of the store or an earlier
    one, leaves the store without a socket and with its session id; a
    failed connection shows the connection error, a regular close keeps
    the projection. *)
Theorem socket_close_clears_store_socket h failed w w' :
  step (ev_closed h failed) w = Some w' →
  ws (store w') = None
  ∧ sessionId (store w') = sessionId (store w)
  ∧ uiState (store w') =
      (if failed then error (Some (JStr "Connection error")) else uiState (store w))
  ∧ (∀ decision, submitDecision decision w' = Normal w').
Proof.
  simpl. destruct (heap w !! h) as [sock|] eqn:Hh; [| discriminate].
  assert (∀ w1, w1 = onclose (if failed
                              then onerror (set_heap_readyState h CLOSED w)
                              else set_heap_readyState h CLOSED w) →
          ws (store w1) = None
          ∧ sessionId (store w1) = sessionId (store w)
          ∧ uiState (store w1) =
              (if failed then error (Some (JStr "Connection error")) else uiState (store w))
          ∧ (∀ decision, submitDecision decision w1 = Normal w1)) as Hall.
  { intros w1 ->. unfold set_heap_readyState. rewrite Hh.
    split; [reflexivity |]. split; [destruct failed; reflexivity |].
    split; [destruct failed; reflexivity |].
    intros decision. apply submitDecision_guard. left. reflexivity. }
  destruct (readyState sock); try discriminate; intros [= <-]; apply Hall; reflexivity.
Qed.

(** ** Requests and statuses *)

(** An arriving request changes the projection, the three highlight
    collections and the selected document, and nothing else. *)
Lemma handleApprovalRequest_frame request w :
  let w' := handleApprovalRequest request w in
  sessionId (store w') = sessionId (store w)
  ∧ ws (store w') = ws (store w)
  ∧ documents (store w') = documents (store w)
  ∧ selectedDocumentDetail (store w') = selectedDocumentDetail (store w)
  ∧ files (store w') = files (store w)
  ∧ selectedFilePath (store w') = selectedFilePath (store w)
  ∧ currentPdfPage (store w') = currentPdfPage (store w)
  ∧ todos (store w') = todos (store w)
  ∧ workflowEvents (store w') = workflowEvents (store w)
  ∧ panel w' = panel w
  ∧ heap w' = heap w
  ∧ wire w' = wire w
  ∧ alerts w' = alerts w
  ∧ uiState (store w') = awaiting_approval request.
Proof. simpl. auto 20. Qed.

(** X14: the viewer is mounted for the document an arriving request
    selects by itself, but, unlike a click on the document list, the
    selection neither fetches the detail nor goes back to page 1: the
    detail and the page are the ones from before, and where no detail was
    loaded the viewer has no page count, no significant page, and a next
    button that does nothing. *)
Theorem auto_selection_loads_no_detail request w dh rest :
  hasDocumentSelected (store w) = false →
  document_highlights request = dh :: rest →
  dh_doc_id dh ≠ EmptyString →
  let w' := handleApprovalRequest request w in
  mounts_PDFViewer (store w') = true
  ∧ selectedDocumentDetail (store w') = selectedDocumentDetail (store w)
  ∧ currentPdfPage (store w') = currentPdfPage (store w)
  ∧ (selectedDocumentDetail (store w) = None →
     page_count_or_0 (store w') = 0
     ∧ handleNextPage w' = w'
     ∧ ∀ pageNum, isPageLegallySignificant (store w') pageNum = false).
Proof.
  unfold hasDocumentSelected. intros Hsel Hdhs Hid. simpl.
  split; [| split; [reflexivity | split; [reflexivity |]]].
  - unfold mounts_PDFViewer, hasDocumentSelected. simpl.
    rewrite Hsel, andb_true_r.
    rewrite bool_decide_eq_true_2 by (apply new_Set_size; rewrite Hdhs; discriminate).
    rewrite head_new_Set, Hdhs. simpl.
    apply String.eqb_neq in Hid. rewrite Hid. reflexivity.
  - intros Hnone.
    unfold page_count_or_0, handleNextPage, isPageLegallySignificant. simpl.
    rewrite Hnone. auto.
Qed.

(** X15: the document an arriving request selects by itself is one of
    the highlighted documents and has an entry in the page highlights; the
    document list shows every document with that id as highlighted and
    selected. *)
Theorem auto_selected_document_is_highlighted request w :
  hasDocumentSelected (store w) = false →
  document_highlights request ≠ [] →
  let st' := store (handleApprovalRequest request w) in
  ∃ d, selectedDocumentId st' = Some d
       ∧ d ∈ highlightedDocumentIds st'
       ∧ is_Some (highlightedPages st' !! d)
       ∧ ∀ doc, document_id doc = d →
                document_isHighlighted st' doc = true
                ∧ document_isSelected st' doc = true.
Proof.
  unfold hasDocumentSelected. intros Hsel Hne. simpl.
  destruct (document_highlights request) as [| dh rest] eqn:Hdhs; [contradiction |].
  rewrite Hsel, andb_true_r.
  rewrite bool_decide_eq_true_2 by (apply new_Set_size; discriminate).
  rewrite head_new_Set. simpl. exists (dh_doc_id dh). split; [reflexivity |].
  assert (dh_doc_id dh ∈ new_Set (dh_doc_id dh :: map dh_doc_id rest)) as Hin
      by (apply elem_of_new_Set, list_elem_of_here).
  split; [exact Hin |]. split.
  - rewrite add_page_highlights_dom, document_pages_lookup, fmap_is_Some,
      last_document_highlight_is_Some.
    left. exists dh. split; [apply list_elem_of_here | reflexivity].
  - intros doc Hdoc. unfold document_isHighlighted, document_isSelected, set_has. simpl.
    rewrite Hdoc. split; apply bool_decide_eq_true; [exact Hin | reflexivity].
Qed.

(** X16: a status message that says completed, failed or running takes a
    displayed request off the screen without an answer: afterwards the
    panel offers no button and no editor, a call of [submitDecision] does
    nothing, nothing was sent, and the highlights of the request stay. *)
Theorem status_dismisses_request (data : jsany) (w : World) :
  status_of data = Some (JStr "completed")
  ∨ status_of data = Some (JStr "failed")
  ∨ status_of data = Some (JStr "running") →
  let w' := settle (handleAgentStatus data w) in
  (∀ b, onClick b w' = None)
  ∧ (∀ text, onChange text w' = None)
  ∧ (∀ decision, submitDecision decision w' = Normal w')
  ∧ wire w' = wire w
  ∧ highlightedDocumentIds (store w') = highlightedDocumentIds (store w)
  ∧ highlightedPages (store w') = highlightedPages (store w)
  ∧ highlightedFilePaths (store w') = highlightedFilePaths (store w).
Proof.
  intros Hstatus.
  assert (∃ u, is_awaiting u = false
               ∧ settle (handleAgentStatus data w) = store_set (set_uiState u) w)
    as (u & Hu & ->).
  { destruct data as [v|]; [| destruct Hstatus as [? | [? | ?]]; discriminate].
    destruct v; try (destruct Hstatus as [? | [? | ?]]; discriminate).
    simpl in Hstatus. unfold handleAgentStatus. simpl.
    destruct Hstatus as [-> | [-> | ->]]; simpl;
      [exists completed | eexists (error _) | exists agent_running]; split; reflexivity. }
  simpl. repeat split; try reflexivity.
  - intros b. unfold onClick. simpl. destruct u; try reflexivity. discriminate.
  - intros text. unfold onChange. simpl. destruct u; try reflexivity. discriminate.
  - intros decision. apply submitDecision_guard. right. exact Hu.
Qed.

Lemma highlights_of_displayed_request_step e w w' :
  highlights_of_displayed_request w → step e w = Some w' →
  highlights_of_displayed_request w'.
Proof.
  unfold highlights_of_displayed_request. intros Hinv. destruct e; simpl.
  - destruct (onClick b w) as [c|] eqn:Hc; [| discriminate]. intros [= <-].
    destruct (click_effect b w c Hc) as (w1 & al & pn & [-> | [l ->]] & _ & ->);
      simpl; [exact Hinv | discriminate].
  - unfold onChange. destruct (uiState (store w)) eqn:Hui; try discriminate.
    destruct (isEditing (panel w)); [| discriminate]. intros [= <-].
    intros r Hr. simpl in Hr. rewrite Hui in Hr. apply Hinv. exact Hr.
  - intros [= <-]. exact Hinv.
  - intros [= <-]. unfold disconnect. destruct (ws (store w)) as [h|]; [| exact Hinv].
    unfold ws_close. destruct (heap w !! h) as [sock|]; [destruct (readyState sock) |];
      exact Hinv.
  - intros [= <-].
    destruct (submitDecision_effect decision w) as [-> | [l ->]];
      [exact Hinv | discriminate].
  - intros [= <-]. exact Hinv.
  - intros [= <-]. exact Hinv.
  - intros [= <-]. exact Hinv.
  - intros [= <-]. exact Hinv.
  - intros [= <-]. exact Hinv.
  - intros [= <-]. exact Hinv.
  - intros [= <-]. destruct which; exact Hinv.
  - intros [= <-]. exact Hinv.
  - destruct (heap w !! h) as [sock|] eqn:Hh; [| discriminate].
    destruct (readyState sock); try discriminate. intros [= <-]. discriminate.
  - destruct (heap w !! h) as [sock|] eqn:Hh; [| discriminate].
    destruct (readyState sock); try discriminate. intros [= <-].
    destruct message; simpl; try exact Hinv.
    + intros request [= <-]. auto.
    + destruct (handleAgentStatus_cases data w) as [-> | (u & Hu & ->)]; [exact Hinv |].
      simpl. intros request ->. discriminate.
  - destruct (heap w !! h) as [sock|] eqn:Hh; [| discriminate].
    destruct (readyState sock); try discriminate. intros [= <-].
    unfold set_heap_readyState. rewrite Hh. exact Hinv.
  - destruct (heap w !! h) as [sock|] eqn:Hh; [| discriminate].
    destruct (readyState sock); try discriminate; intros [= <-];
      unfold set_heap_readyState; rewrite Hh; destruct failed; simpl;
      first [exact Hinv | discriminate].
Qed.

(** X17: whenever a request is displayed, the highlights on the screen
    are exactly the ones derived from that request: no event changes the
    highlights of a displayed request, and highlights of an earlier request
    never mix into them. *)
Theorem displayed_request_owns_highlights (es : list Event) (w w' : World) :
  highlights_of_displayed_request w → run es w = Some w' →
  highlights_of_displayed_request w'.
Proof.
  apply (run_app highlights_of_displayed_request).
  intros e; apply highlights_of_displayed_request_step.
Qed.

End SessionProperties.

Section PanelProperties.
Context `{platform : Platform}.

(** ** The approval panel in use *)

Lemma click_edit_opens request w :
  uiState (store w) = awaiting_approval request →
  canEdit request = true →
  isEditing (panel w) = false →
  step (ev_click btn_edit) w =
    Some (setIsEditing true
            (setEditedArgs (JSON_stringify_indent2 (tool_args request)) w)).
Proof.
  intros Hui Hcan Hed. simpl. unfold onClick. rewrite Hui, Hcan. simpl.
  unfold handleEdit. rewrite Hed. reflexivity.
Qed.

Lemma click_edit_confirms request w h sock parsed :
  uiState (store w) = awaiting_approval request →
  canEdit request = true →
  isEditing (panel w) = true →
  JSON_parse (editedArgs (panel w)) = Some parsed →
  ws (store w) = Some h →
  heap w !! h = Some sock →
  readyState sock = OPEN →
  step (ev_click btn_edit) w =
    Some (setIsEditing false
            (store_set resumed
               (with_wire
                  (wire w ++
                   [(h, JSON_stringify
                          (approval_decision (request_id request)
                             (decision_edit request parsed)))])
                  w))).
Proof.
  intros Hui Hcan Hed Hparse Hws Hh Hr. simpl. unfold onClick. rewrite Hui, Hcan. simpl.
  unfold handleEdit. rewrite Hed, Hparse.
  rewrite (submitDecision_awaiting _ _ h request) by assumption.
  rewrite (ws_send_open _ _ _ sock) by assumption. reflexivity.
Qed.

(** X18: the edit button followed by the cancel button sends nothing and
    leaves the store as it is; the panel is back out of editing mode, the
    editor text being the pretty-printed arguments of the request. *)
Theorem edit_then_cancel request w :
  uiState (store w) = awaiting_approval request →
  canEdit request = true →
  isEditing (panel w) = false →
  ∃ w', run [ev_click btn_edit; ev_click btn_cancel] w = Some w'
        ∧ store w' = store w
        ∧ heap w' = heap w
        ∧ wire w' = wire w
        ∧ alerts w' = alerts w
        ∧ isEditing (panel w') = false
        ∧ editedArgs (panel w') = JSON_stringify_indent2 (tool_args request).
Proof.
  intros Hui Hcan Hed. simpl. unfold onClick. rewrite Hui, Hcan. simpl.
  unfold handleEdit. rewrite Hed. simpl. rewrite Hui. simpl.
  eexists. split; [reflexivity |]. simpl. auto 10.
Qed.

(** X19: confirming an edit without touching the text sends the original
    arguments of the request back as the edited ones, on a platform where
    parsing the pretty-printed arguments gives the arguments. *)
Theorem unchanged_edit_sends_original_args request w h sock :
  uiState (store w) = awaiting_approval request →
  canEdit request = true →
  isEditing (panel w) = false →
  ws (store w) = Some h →
  heap w !! h = Some sock →
  readyState sock = OPEN →
  JSON_parse (JSON_stringify_indent2 (tool_args request)) = Some (tool_args request) →
  ∃ w', run [ev_click btn_edit; ev_click btn_edit] w = Some w'
        ∧ wire w' =
            wire w ++
            [(h, JSON_stringify
                   (JObj [("type", JStr "approval_decision");
                          ("request_id", JStr (request_id request));
                          ("decision",
                           JObj [("type", JStr "edit");
                                 ("edited_action",
                                  JObj [("name", JStr (tool_name request));
                                        ("args", tool_args request)])])]))]
        ∧ uiState (store w') = agent_running
        ∧ isEditing (panel w') = false.
Proof.
  intros Hui Hcan Hed Hws Hh Hr Hparse. unfold run.
  rewrite (click_edit_opens request w) by assumption.
  rewrite (click_edit_confirms request _ h sock (tool_args request))
    by (simpl; first [assumption | reflexivity]).
  eexists. split; [reflexivity |]. simpl. auto.
Qed.

(** X20: the editing state of the panel outlives the request it was
    opened for: when a new request arrives while the user is editing, the
    approve and reject buttons are disabled for it, and a confirmation
    sends the text typed for the earlier request as the edited arguments of
    the tool of the new one. *)
Theorem edit_text_survives_new_request w h sock request2 parsed now :
  isEditing (panel w) = true →
  JSON_parse (editedArgs (panel w)) = Some parsed →
  ws (store w) = Some h →
  heap w !! h = Some sock →
  readyState sock = OPEN →
  canEdit request2 = true →
  ∃ w1 w2,
    step (ev_message h (msg_approval_request request2) now) w = Some w1
    ∧ panel w1 = panel w
    ∧ step (ev_click btn_approve) w1 = None
    ∧ step (ev_click btn_reject) w1 = None
    ∧ step (ev_click btn_edit) w1 = Some w2
    ∧ wire w2 =
        wire w ++
        [(h, JSON_stringify
               (JObj [("type", JStr "approval_decision");
                      ("request_id", JStr (request_id request2));
                      ("decision",
                       JObj [("type", JStr "edit");
                             ("edited_action",
                              JObj [("name", JStr (tool_name request2));
                                    ("args", parsed)])])]))].
Proof.
  intros Hed Hparse Hws Hh Hr Hcan.
  exists (handleApprovalRequest request2 w). eexists.
  split; [simpl; rewrite Hh, Hr; reflexivity |]. split; [reflexivity |].
  split; [simpl; unfold onClick; simpl; rewrite Hed; reflexivity |].
  split; [simpl; unfold onClick; simpl; rewrite Hed, andb_false_r; reflexivity |].
  split.
  - apply (click_edit_confirms request2 _ h sock parsed);
      simpl; first [assumption | reflexivity].
  - reflexivity.
Qed.

(** X21: the round of an approval: a request arrives on the socket of
    the store, the user clicks approve; one frame goes out, the envelope of
    the request with the decision [{ type: 'approve' }], the client is
    back at [agent_running] with empty highlights, and the document the
    request selected stays selected. *)
Theorem approval_round request w h sock now :
  ws (store w) = Some h →
  heap w !! h = Some sock →
  readyState sock = OPEN →
  isEditing (panel w) = false →
  ∃ w', run [ev_message h (msg_approval_request request) now; ev_click btn_approve] w
        = Some w'
        ∧ wire w' =
            wire w ++
            [(h, JSON_stringify
                   (JObj [("type", JStr "approval_decision");
                          ("request_id", JStr (request_id request));
                          ("decision", JObj [("type", JStr "approve")])]))]
        ∧ uiState (store w') = agent_running
        ∧ highlightedDocumentIds (store w') = []
        ∧ highlightedPages (store w') = ∅
        ∧ highlightedFilePaths (store w') = []
        ∧ selectedDocumentId (store w')
          = selectedDocumentId (store (handleApprovalRequest request w)).
Proof.
  intros Hws Hh Hr Hed. simpl. rewrite Hh, Hr. simpl.
  unfold onClick. simpl. rewrite Hed. simpl. unfold handleApprove.
  rewrite (submitDecision_awaiting _ _ h request)
    by (simpl; first [assumption | reflexivity]).
  rewrite (ws_send_open _ _ _ sock) by (simpl; assumption).
  eexists. split; [reflexivity |]. simpl. auto 10.
Qed.

(** X22: the reject button exists only for a request that allows
    rejection; where it exists and the panel is not editing, it sends the
    decision [{ type: 'reject', reason: 'User rejected' }]. *)
Theorem reject_button request w :
  uiState (store w) = awaiting_approval request →
  (includes (allowed_decisions request) "reject" = false →
   step (ev_click btn_reject) w = None)
  ∧ (∀ h sock,
       includes (allowed_decisions request) "reject" = true →
       isEditing (panel w) = false →
       ws (store w) = Some h → heap w !! h = Some sock → readyState sock = OPEN →
       ∃ w', step (ev_click btn_reject) w = Some w'
             ∧ wire w' =
                 wire w ++
                 [(h, JSON_stringify
                        (JObj [("type", JStr "approval_decision");
                               ("request_id", JStr (request_id request));
                               ("decision",
                                JObj [("type", JStr "reject");
                                      ("reason", JStr "User rejected")])]))]).
Proof.
  intros Hui. simpl. unfold onClick, canReject. rewrite Hui. split.
  - intros ->. reflexivity.
  - intros h sock -> Hed Hws Hh Hr. rewrite Hed. simpl. unfold handleReject.
    rewrite (submitDecision_awaiting _ _ h request) by assumption.
    rewrite (ws_send_open _ _ _ sock) by assumption.
    eexists. split; reflexivity.
Qed.

(** X26: whatever button of the panel is clicked, a frame that goes out
    carries an approve decision, or an edit decision for a request whose
    [allowed_decisions] include "edit", or a reject decision for a request
    whose [allowed_decisions] include "reject". *)
Theorem panel_offers_edit_and_reject_only_when_allowed b w w' :
  step (ev_click b) w = Some w' →
  wire w' = wire w
  ∨ ∃ h request decision,
      uiState (store w) = awaiting_approval request
      ∧ wire w' =
          wire w ++
          [(h, JSON_stringify
                 (JObj [("type", JStr "approval_decision");
                        ("request_id", JStr (request_id request));
                        ("decision", decision)]))]
      ∧ (prop "type" decision = Some (JStr "approve")
         ∨ (prop "type" decision = Some (JStr "edit")
            ∧ includes (allowed_decisions request) "edit" = true)
         ∨ (prop "type" decision = Some (JStr "reject")
            ∧ includes (allowed_decisions request) "reject" = true)).
Proof.
  intros Hstep. destruct (step_transmission _ w w' Hstep)
    as [Hw | (h & request & decision & Hws & Hui & Hw & _ & Ho)]; [left; assumption |].
  right. exists h, request, decision. split; [assumption |]. split; [exact Hw |].
  destruct Ho as [[=] | [[_ ->] | [(_ & Hcan & parsed & _ & ->) | (_ & Hcan & ->)]]]; auto.
Qed.

End PanelProperties.

Section ApplicationProperties.
Context `{platform : Platform}.

(** ** The mounted application *)

(** The components reach the store only through its actions: an event of
    the mounted application does nothing or is a step of the client. *)
Lemma app_step_simulated e w w' :
  app_step e w = Some w' → w' = w ∨ ∃ e', step e' w = Some w'.
Proof.
  destruct e;
    try (intros He; right; eexists; exact He);
    simpl.
  - intros [= <-]. right. exists (ev_setDocuments docs). reflexivity.
  - intros [= <-]. right. exists (ev_connect session_id). reflexivity.
  - intros [= <-]. right. exists (ev_selectDocument_resolved detail). reflexivity.
  - destruct (mounts_DocumentList (store w)); [| discriminate]. unfold document_onClick.
    destruct (documents (store w) !! i) as [doc|]; [| discriminate]. intros [= <-].
    right. exists (ev_selectDocument (document_id doc)). reflexivity.
  - destruct (mounts_PDFViewer (store w)); [| discriminate]. unfold nav_onClick.
    destruct (truthy (selectedDocumentId (store w))); [| discriminate].
    destruct b.
    + destruct (Z.eqb _ 1); [discriminate |]. intros [= <-]. unfold handlePrevPage.
      destruct (Z.ltb 1 _); [| auto].
      right. eexists (ev_setCurrentPdfPage _). reflexivity.
    + destruct (Z.eqb _ _); [discriminate |]. intros [= <-]. unfold handleNextPage.
      destruct (selectedDocumentDetail (store w)) as [detail|]; [| auto].
      destruct (Z.ltb _ _); [| auto].
      right. eexists (ev_setCurrentPdfPage _). reflexivity.
  - destruct (mounts_PDFViewer (store w)); [| discriminate]. unfold page_onClick.
    destruct (truthy _ && negb sidebarCollapsed); [| discriminate].
    destruct (selectedDocumentDetail (store w)) as [detail|]; [| discriminate].
    destruct (detail_pages detail !! i) as [page|]; [| discriminate]. intros [= <-].
    right. eexists (ev_setCurrentPdfPage _). reflexivity.
  - destruct (mounts_FileEditor (store w)); [| discriminate]. unfold file_onClick.
    destruct (files (store w) !! k) as [file|]; [| discriminate]. intros [= <-].
    right. exists (ev_selectFile (path file)). reflexivity.
  - destruct (mounts_FileEditor (store w)); [| discriminate].
    unfold content_onChange, handleContentChange, selectedFile.
    destruct (selectedFilePath (store w)) as [p|]; [| discriminate].
    destruct (truthy (Some p)); [| discriminate].
    destruct (files (store w) !! p); [| discriminate]. intros [= <-].
    right. exists (ev_updateFile p value now). reflexivity.
Qed.

Lemma app_run_invariant (P : World → Prop) :
  (∀ e w w', P w → step e w = Some w' → P w') →
  ∀ es w w', P w → app_run es w = Some w' → P w'.
Proof.
  intros Hstep es. induction es as [| e es IH]; intros w w' HP; simpl.
  - intros [= <-]. assumption.
  - destruct (app_step e w) as [w1|] eqn:He; [| discriminate]. intros Hrun.
    apply (IH w1); [| assumption].
    destruct (app_step_simulated e w w1 He) as [-> | [e' He']]; [assumption |].
    apply (Hstep e' w); assumption.
Qed.

Lemma app_step_files e w w' :
  hasFileSelected (store w) = false → app_step e w = Some w' →
  selectedFilePath (store w') = selectedFilePath (store w)
  ∧ files (store w') = files (store w).
Proof.
  intros Hsel.
  assert (∀ e', step e' w = Some w' →
                (∀ p c now, e' ≠ ev_updateFile p c now) → (∀ p, e' ≠ ev_selectFile p) →
                selectedFilePath (store w') = selectedFilePath (store w)
                ∧ files (store w') = files (store w)) as Hframe.
  { intros e' He' Hu Hs.
    destruct (step_files_frame e' w w' He') as ([? | (p & c & now & ->)] & [? | (p' & ->)] & _);
      try (exfalso; eapply Hu; reflexivity); try (exfalso; eapply Hs; reflexivity).
    auto. }
  destruct e;
    [ | | | | | | | |
      intros He; apply (Hframe (ev_click b) He); intros; discriminate
    | intros He; apply (Hframe (ev_change text) He); intros; discriminate
    | intros He; apply (Hframe (ev_open h) He); intros; discriminate
    | intros He; apply (Hframe (ev_message h message now) He); intros; discriminate
    | intros He; apply (Hframe (ev_closing h) He); intros; discriminate
    | intros He; apply (Hframe (ev_closed h failed) He); intros; discriminate ];
    simpl; unfold mounts_FileEditor; rewrite ?Hsel; try discriminate.
  - intros [= <-]. auto.
  - intros [= <-]. auto.
  - intros [= <-]. auto.
  - destruct (mounts_DocumentList (store w)); [| discriminate]. unfold document_onClick.
    destruct (documents (store w) !! i); [| discriminate]. intros [= <-]. auto.
  - destruct (mounts_PDFViewer (store w)); [| discriminate]. unfold nav_onClick.
    destruct (truthy (selectedDocumentId (store w))); [| discriminate].
    destruct b.
    + destruct (Z.eqb _ 1); [discriminate |]. intros [= <-]. unfold handlePrevPage.
      destruct (Z.ltb 1 _); auto.
    + destruct (Z.eqb _ _); [discriminate |]. intros [= <-]. unfold handleNextPage.
      destruct (selectedDocumentDetail (store w)); [| auto]. destruct (Z.ltb _ _); auto.
  - destruct (mounts_PDFViewer (store w)); [| discriminate]. unfold page_onClick.
    destruct (truthy _ && negb sidebarCollapsed); [| discriminate].
    destruct (selectedDocumentDetail (store w)) as [detail|]; [| discriminate].
    destruct (detail_pages detail !! i); [| discriminate]. intros [= <-]. auto.
Qed.

(** X23: the file editor cannot be reached: starting without a selected
    file, no sequence of user and network events selects a file or changes
    the files; the editor is never mounted, the right panel keeps the
    document list and its width of 20. *)
Theorem file_editor_unreachable (es : list AppEvent) (w w' : World) :
  hasFileSelected (store w) = false →
  app_run es w = Some w' →
  selectedFilePath (store w') = selectedFilePath (store w)
  ∧ files (store w') = files (store w)
  ∧ mounts_FileEditor (store w') = false
  ∧ mounts_DocumentList (store w') = true
  ∧ rightWidth (layout (store w')) = 20.
Proof.
  revert w. induction es as [| e es IH]; intros w Hsel; simpl.
  - intros [= <-]. unfold mounts_FileEditor, mounts_DocumentList, layout. rewrite Hsel.
    rewrite orb_true_r. destruct (hasDocumentSelected (store w)); auto.
  - destruct (app_step e w) as [w1|] eqn:He; [| discriminate]. intros Hrun.
    destruct (app_step_files e w w1 Hsel He) as [Hp Hf].
    assert (hasFileSelected (store w1) = false) as Hsel1
        by (unfold hasFileSelected in *; rewrite Hp; assumption).
    destruct (IH w1 Hsel1 Hrun) as (Hp' & Hf' & Hrest).
    rewrite Hp', Hf', Hp, Hf. auto.
Qed.

(** X24: every state the mounted application can reach from its initial
    state has a socket that matches the session id, files stored under
    their paths (none, in fact), and, while a request is displayed, exactly
    the highlights of that request. *)
Theorem reachable_states_are_consistent (es : list AppEvent) (w' : World) :
  app_run es initial_world = Some w' →
  session_consistent w'
  ∧ files_keyed_by_path w'
  ∧ highlights_of_displayed_request w'.
Proof.
  intros Hrun. split; [| split].
  - apply (app_run_invariant session_consistent session_consistent_step es initial_world);
      [| assumption].
    intros h. discriminate.
  - apply (app_run_invariant files_keyed_by_path files_keyed_by_path_step es initial_world);
      [| assumption].
    intros k file Hk. simpl in Hk. rewrite lookup_empty in Hk. discriminate.
  - apply (app_run_invariant highlights_of_displayed_request
             highlights_of_displayed_request_step es initial_world); [| assumption].
    intros request. discriminate.
Qed.

(** X25: typing in the editor changes the content of the selected file
    and its time stamp, and never adds a file: the editor is shown only
    for a file that exists, and the paths in the store stay the same. *)
Theorem content_change_edits_selected_file value now w w' :
  content_onChange value now w = Some w' →
  ∃ p file,
    selectedFilePath (store w) = Some p
    ∧ files (store w) !! p = Some file
    ∧ files (store w') =
        <[p := {| path := p; file_content := value; updated_at := now |}]> (files (store w))
    ∧ dom (files (store w')) = dom (files (store w))
    ∧ selectedFile (store w') =
        Some {| path := p; file_content := value; updated_at := now |}.
Proof.
  unfold content_onChange, handleContentChange, selectedFile.
  destruct (selectedFilePath (store w)) as [p|] eqn:Hp; [| discriminate].
  destruct (truthy (Some p)) eqn:Ht; [| discriminate].
  destruct (files (store w) !! p) as [file|] eqn:Hf; [| discriminate].
  intros [= <-]. exists p, file.
  split; [reflexivity |]. split; [exact Hf |]. split; [reflexivity |]. split.
  - apply dom_insert_lookup_L. eauto.
  - unfold updateFile, store_set, with_store, set_files.
    cbn [store selectedFilePath files]. rewrite Hp, Ht. apply lookup_insert_eq.
Qed.

End ApplicationProperties.

(** * The further properties on concrete runs *)

Lemma navigation_stays_in_range_witness :
  let w' := foldl (λ w b, navigate b w) world_viewing
                  [nav_next; nav_next; nav_next; nav_prev; nav_next] in
  (1 ≤ currentPdfPage (store w'))%Z ∧ (currentPdfPage (store w') ≤ 3)%Z.
Proof.
  intros w'.
  destruct (navigation_stays_in_range
              [nav_next; nav_next; nav_next; nav_prev; nav_next] world_viewing)
    as [Hlo Hhi].
  split; [apply Hlo | apply (Hhi example_detail eq_refl)]; vm_compute; discriminate.
Defined.

Lemma prev_next_round_trip_witness :
  handleNextPage (handlePrevPage world_viewing) = world_viewing.
Proof.
  apply (proj1 (prev_next_round_trip world_viewing example_detail eq_refl)).
  split; vm_compute; [reflexivity | discriminate].
Defined.

Lemma isPageLegallySignificant_iff_witness :
  isPageLegallySignificant (store world_viewing) 2 = true
  ∧ isPageLegallySignificant (store initial_world) 2 = false.
Proof.
  split.
  - apply (proj2 (isPageLegallySignificant_iff (store world_viewing) 2)
             example_detail eq_refl).
    + apply (bool_decide_unpack _). vm_compute. exact I.
    + exists {| num := 2; page_summary := "Warranties"; legally_significant := true |}.
      split; [| split; reflexivity].
      apply list_elem_of_further, list_elem_of_here.
  - apply (proj1 (isPageLegallySignificant_iff (store initial_world) 2)). reflexivity.
Defined.

Lemma viewer_marks_requested_pages_witness :
  let request := example_request ["approve"; "reject"] in
  let st' := store (handleApprovalRequest request initial_world) in
  isPageHighlighted st' 7 = true ↔
    (∃ dh, last_document_highlight "d1" (document_highlights request) = Some dh
           ∧ 7 ∈ legally_significant_pages dh)
    ∨ (∃ ph, ph ∈ page_highlights request ∧ ph_doc_id ph = "d1" ∧ 7 ∈ page_nums ph).
Proof.
  intros request st'.
  apply (viewer_marks_requested_pages request initial_world "d1" 7);
    [reflexivity | discriminate].
Defined.

Lemma updateFile_lookup_witness :
  files (store (updateFile "notes.md" "x" "t1" world_with_file)) !! "report.md"
  = files (store world_with_file) !! "report.md".
Proof.
  apply (proj1 (proj2 (updateFile_lookup "notes.md" "x" "t1" world_with_file))).
  discriminate.
Defined.

Lemma files_stay_keyed_by_path_witness :
  files_keyed_by_path
    (after [ev_updateFile "report.md" "# Draft" "t0"; ev_connect "s1";
            ev_updateFile "report.md" "# Final" "t1"]).
Proof.
  apply (files_stay_keyed_by_path (platform := ref_platform)
           [ev_updateFile "report.md" "# Draft" "t0"; ev_connect "s1";
            ev_updateFile "report.md" "# Final" "t1"] initial_world).
  - intros k file Hk. simpl in Hk. rewrite lookup_empty in Hk. discriminate.
  - vm_compute. reflexivity.
Defined.

Lemma workflow_log_append_only_witness :
  let es := [ev_message 0%nat (msg_workflow_event "tool_call" JNull) "t1";
             ev_message 0%nat (msg_agent_status (Some (JObj [("status", JStr "completed")]))) "t2";
             ev_message 0%nat (msg_workflow_event "tool_result" JNull) "t3"] in
  workflowEvents (store world_running)
    `prefix_of` workflowEvents (store (after ([ev_connect "s1"; ev_open 0%nat] ++ es))).
Proof.
  intros es.
  apply (workflow_log_append_only (platform := ref_platform) es world_running).
  vm_compute. reflexivity.
Defined.

Lemma session_stays_consistent_witness :
  session_consistent
    (after [ev_connect "s1"; ev_open 0%nat; ev_connect "s2"; ev_closing 0%nat;
            ev_open 1%nat]).
Proof.
  apply (session_stays_consistent (platform := ref_platform)
           [ev_connect "s1"; ev_open 0%nat; ev_connect "s2"; ev_closing 0%nat;
            ev_open 1%nat] initial_world).
  - intros h. discriminate.
  - vm_compute. reflexivity.
Defined.

Lemma connect_keeps_previous_sockets_witness :
  heap (connect (platform := ref_platform) "s2" world_running) !! 0%nat
  = heap world_running !! 0%nat.
Proof.
  apply (proj1 (proj2 (proj2
           (connect_keeps_previous_sockets (platform := ref_platform) "s2" world_running)))).
  vm_compute. lia.
Defined.

Lemma disconnect_idempotent_witness :
  disconnect initial_world = initial_world
  ∧ sessionId (store (disconnect world_running)) = None.
Proof.
  destruct (disconnect_idempotent (platform := ref_platform) initial_world)
    as (_ & _ & Hnone & _).
  destruct (disconnect_idempotent (platform := ref_platform) world_running)
    as (_ & _ & _ & Hsome & _).
  split; [apply Hnone; reflexivity | apply Hsome; vm_compute; eauto].
Defined.

Lemma socket_close_clears_store_socket_witness :
  let w' := after (arrival (example_request ["approve"; "reject"])
                   ++ [ev_closed 0%nat true]) in
  ws (store w') = None
  ∧ sessionId (store w') = sessionId (store world_awaiting)
  ∧ uiState (store w') = error (Some (JStr "Connection error"))
  ∧ (∀ decision, submitDecision (platform := ref_platform) decision w' = Normal w').
Proof.
  intros w'.
  apply (socket_close_clears_store_socket (platform := ref_platform)
           0%nat true
           (after (arrival (example_request ["approve"; "reject"]))) w').
  vm_compute. reflexivity.
Defined.

Lemma auto_selection_loads_no_detail_witness :
  let w' := handleApprovalRequest (example_request ["approve"]) world_running in
  mounts_PDFViewer (store w') = true
  ∧ selectedDocumentDetail (store w') = selectedDocumentDetail (store world_running)
  ∧ currentPdfPage (store w') = currentPdfPage (store world_running)
  ∧ (selectedDocumentDetail (store world_running) = None →
     page_count_or_0 (store w') = 0
     ∧ handleNextPage w' = w'
     ∧ ∀ pageNum, isPageLegallySignificant (store w') pageNum = false).
Proof.
  apply (auto_selection_loads_no_detail (example_request ["approve"]) world_running
           example_documents []);
    [reflexivity | reflexivity | discriminate].
Defined.

Lemma auto_selected_document_is_highlighted_witness :
  let st' := store (handleApprovalRequest (example_request ["approve"]) initial_world) in
  ∃ d, selectedDocumentId st' = Some d
       ∧ d ∈ highlightedDocumentIds st'
       ∧ is_Some (highlightedPages st' !! d)
       ∧ ∀ doc, document_id doc = d →
                document_isHighlighted st' doc = true
                ∧ document_isSelected st' doc = true.
Proof.
  apply (auto_selected_document_is_highlighted (example_request ["approve"]) initial_world);
    [reflexivity | discriminate].
Defined.

Lemma status_dismisses_request_witness :
  let w' := settle (handleAgentStatus (Some (JObj [("status", JStr "running")]))
                                      world_awaiting) in
  (∀ b, onClick (platform := ref_platform) b w' = None)
  ∧ (∀ text, onChange text w' = None)
  ∧ (∀ decision, submitDecision (platform := ref_platform) decision w' = Normal w')
  ∧ wire w' = wire world_awaiting
  ∧ highlightedDocumentIds (store w') = highlightedDocumentIds (store world_awaiting)
  ∧ highlightedPages (store w') = highlightedPages (store world_awaiting)
  ∧ highlightedFilePaths (store w') = highlightedFilePaths (store world_awaiting).
Proof.
  apply (status_dismisses_request (platform := ref_platform)
           (Some (JObj [("status", JStr "running")])) world_awaiting).
  right. right. reflexivity.
Defined.

Lemma displayed_request_owns_highlights_witness :
  highlights_of_displayed_request
    (after (arrival request_twice
            ++ [ev_selectDocument "d2"; ev_click btn_edit; ev_click btn_cancel])).
Proof.
  apply (displayed_request_owns_highlights (platform := ref_platform)
           (arrival request_twice
            ++ [ev_selectDocument "d2"; ev_click btn_edit; ev_click btn_cancel])
           initial_world).
  - intros request. discriminate.
  - vm_compute. reflexivity.
Defined.

Lemma edit_then_cancel_witness :
  let request := example_request ["approve"; "edit"; "reject"] in
  ∃ w', run (platform := ref_platform) [ev_click btn_edit; ev_click btn_cancel] world_awaiting
        = Some w'
        ∧ store w' = store world_awaiting
        ∧ heap w' = heap world_awaiting
        ∧ wire w' = wire world_awaiting
        ∧ alerts w' = alerts world_awaiting
        ∧ isEditing (panel w') = false
        ∧ editedArgs (panel w') = RefJSON.stringify2 (tool_args request).
Proof.
  intros request.
  apply (edit_then_cancel (platform := ref_platform) request world_awaiting);
    vm_compute; reflexivity.
Defined.

Lemma unchanged_edit_sends_original_args_witness :
  let request := example_request ["approve"; "edit"; "reject"] in
  ∃ w', run (platform := ref_platform) [ev_click btn_edit; ev_click btn_edit] world_awaiting
        = Some w'
        ∧ wire w' =
            wire world_awaiting ++
            [(0%nat, RefJSON.stringify
                       (JObj [("type", JStr "approval_decision");
                              ("request_id", JStr (request_id request));
                              ("decision",
                               JObj [("type", JStr "edit");
                                     ("edited_action",
                                      JObj [("name", JStr (tool_name request));
                                            ("args", tool_args request)])])]))]
        ∧ uiState (store w') = agent_running
        ∧ isEditing (panel w') = false.
Proof.
  intros request.
  apply (unchanged_edit_sends_original_args (platform := ref_platform)
           request world_awaiting 0%nat socket_open);
    vm_compute; reflexivity.
Defined.

Lemma edit_text_survives_new_request_witness :
  let w := world_editing example_edit_text in
  ∃ w1 w2,
    step (platform := ref_platform) (ev_message 0%nat (msg_approval_request request_twice) "t2") w
    = Some w1
    ∧ panel w1 = panel w
    ∧ step (platform := ref_platform) (ev_click btn_approve) w1 = None
    ∧ step (platform := ref_platform) (ev_click btn_reject) w1 = None
    ∧ step (platform := ref_platform) (ev_click btn_edit) w1 = Some w2
    ∧ wire w2 =
        wire w ++
        [(0%nat, RefJSON.stringify
                   (JObj [("type", JStr "approval_decision");
                          ("request_id", JStr (request_id request_twice));
                          ("decision",
                           JObj [("type", JStr "edit");
                                 ("edited_action",
                                  JObj [("name", JStr (tool_name request_twice));
                                        ("args", example_edit_parsed)])])]))].
Proof.
  intros w.
  apply (edit_text_survives_new_request (platform := ref_platform)
           w 0%nat socket_open request_twice example_edit_parsed "t2");
    vm_compute; reflexivity.
Defined.

Lemma approval_round_witness :
  let request := example_request ["approve"; "reject"] in
  ∃ w', run (platform := ref_platform)
            [ev_message 0%nat (msg_approval_request request) "t1"; ev_click btn_approve]
            world_running = Some w'
        ∧ wire w' =
            wire world_running ++
            [(0%nat, RefJSON.stringify
                       (JObj [("type", JStr "approval_decision");
                              ("request_id", JStr (request_id request));
                              ("decision", JObj [("type", JStr "approve")])]))]
        ∧ uiState (store w') = agent_running
        ∧ highlightedDocumentIds (store w') = []
        ∧ highlightedPages (store w') = ∅
        ∧ highlightedFilePaths (store w') = []
        ∧ selectedDocumentId (store w')
          = selectedDocumentId (store (handleApprovalRequest request world_running)).
Proof.
  intros request.
  apply (approval_round (platform := ref_platform) request world_running 0%nat socket_open);
    vm_compute; reflexivity.
Defined.

Lemma reject_button_witness :
  step (platform := ref_platform) (ev_click btn_reject)
       (after (arrival (example_request ["approve"; "edit"]))) = None.
Proof.
  apply (proj1 (reject_button (platform := ref_platform)
                  (example_request ["approve"; "edit"])
                  (after (arrival (example_request ["approve"; "edit"])))
                  eq_refl)).
  reflexivity.
Defined.

Lemma file_editor_unreachable_witness :
  let es := [app_documents_loaded [detail_document example_detail];
             app_session_started "s1";
             app_document_click 0%nat;
             app_detail_loaded example_detail;
             app_nav_click nav_next;
             app_socket_open 0%nat;
             app_socket_message 0%nat
               (msg_approval_request (example_request ["approve"; "reject"])) "t1";
             app_panel_click btn_approve] in
  ∃ w', app_run (platform := ref_platform) es initial_world = Some w'
        ∧ selectedFilePath (store w') = None
        ∧ files (store w') = ∅
        ∧ mounts_FileEditor (store w') = false
        ∧ mounts_DocumentList (store w') = true
        ∧ rightWidth (layout (store w')) = 20.
Proof.
  intros es.
  exists (default initial_world (app_run (platform := ref_platform) es initial_world)).
  split; [vm_compute; reflexivity |].
  apply (file_editor_unreachable (platform := ref_platform) es initial_world);
    [reflexivity | vm_compute; reflexivity].
Defined.

Lemma reachable_states_are_consistent_witness :
  let es := [app_session_started "s1";
             app_socket_open 0%nat;
             app_socket_message 0%nat
               (msg_approval_request (example_request ["approve"; "reject"])) "t1";
             app_session_started "s2";
             app_socket_closed 0%nat false] in
  let w' := default initial_world (app_run (platform := ref_platform) es initial_world) in
  session_consistent w' ∧ files_keyed_by_path w' ∧ highlights_of_displayed_request w'.
Proof.
  intros es w'.
  apply (reachable_states_are_consistent (platform := ref_platform) es w').
  vm_compute. reflexivity.
Defined.

Lemma content_change_edits_selected_file_witness :
  let w' := handleContentChange "# Final" "t1" world_with_file in
  ∃ p file,
    selectedFilePath (store world_with_file) = Some p
    ∧ files (store world_with_file) !! p = Some file
    ∧ files (store w') =
        <[p := {| path := p; file_content := "# Final"; updated_at := "t1" |}]>
          (files (store world_with_file))
    ∧ dom (files (store w')) = dom (files (store world_with_file))
    ∧ selectedFile (store w') =
        Some {| path := p; file_content := "# Final"; updated_at := "t1" |}.
Proof.
  intros w'.
  apply (content_change_edits_selected_file "# Final" "t1" world_with_file w').
  vm_compute. reflexivity.
Defined.

Lemma panel_offers_edit_and_reject_only_when_allowed_witness :
  let w := after (arrival (example_request ["approve"; "reject"])) in
  let w' := after (arrival (example_request ["approve"; "reject"]) ++ [ev_click btn_reject]) in
  wire w' = wire w
  ∨ ∃ h request decision,
      uiState (store w) = awaiting_approval request
      ∧ wire w' =
          wire w ++
          [(h, RefJSON.stringify
                 (JObj [("type", JStr "approval_decision");
                        ("request_id", JStr (request_id request));
                        ("decision", decision)]))]
      ∧ (prop "type" decision = Some (JStr "approve")
         ∨ (prop "type" decision = Some (JStr "edit")
            ∧ includes (allowed_decisions request) "edit" = true)
         ∨ (prop "type" decision = Some (JStr "reject")
            ∧ includes (allowed_decisions request) "reject" = true)).
Proof.
  intros w w'.
  apply (panel_offers_edit_and_reject_only_when_allowed (platform := ref_platform)
           btn_reject w w').
  vm_compute. reflexivity.
Defined.
